(** * swingutils.threads: deferred results, task executor, dispatch bridge

    A shallow embedding of [swingutils/threads.py] (Jython, Python 2
    syntax).  Python objects are attribute dictionaries living in a heap,
    the code is written in a small state-and-exception monad, and calls to
    Python-defined functions go through the argument binding rules of the
    language, so that an arity mismatch surfaces as the [TypeError] the
    interpreter raises. *)

From Stdlib Require Import ZArith QArith Ascii String List.
From stdpp Require Import gmap strings list fin_maps pretty.

Set Warnings "-register-all".

Local Open Scope string_scope.

(** ** Values *)

(** Failures, that is, everything a [raise] can throw under Jython.
    [PyError] is an instance of a class derived from [BaseException] whose
    message is a byte string, [PyErrorU] one whose message is a unicode
    string; [OldStyleInstance] is an instance of an old-style class, which
    Python 2 lets a program raise; a Java throwable carries its class name
    and detail message.  [ExecutionException] and [CancellationException]
    are the two [java.util.concurrent] throwables the module raises
    itself. *)
Inductive Exn : Type :=
| PyError (cls text : string)
| PyErrorU (cls text : string)
| OldStyleInstance (cls : string)
| JThrowable (cls msg : string)
| ExecutionException (message : option string) (cause : option Exn)
| CancellationException.

(** A Python number passed as a timeout: an integer or a float. *)
Inductive Num : Type :=
| NInt (z : Z)
| NFloat (q : Q).

(** [java.util.concurrent.TimeUnit], known to this module only through
    its method [long toMillis(long)]. *)
Record TimeUnit : Type := { toMillis : Z -> Z }.

(** Python values.  [VFunc f] is a reference to the callable number [f];
    [VRef l] is a reference to the heap object at [l]; [VEvent b] is a
    [threading.Event] whose internal flag is [b] (an event is owned by the
    single holder that created it, so it is stored in place). *)
Inductive Val : Type :=
| VNone
| VBool (b : bool)
| VInt (z : Z)
| VStr (s : string)
| VTuple (items : list Val)
| VDict (d : gmap string Val)
| VFunc (f : nat)
| VExn (e : Exn)
| VEvent (flag : bool)
| VRef (l : nat).

#[export] Instance Val_inhabited : Inhabited Val := populate VNone.

(** The truth value of a value that is not a reference to an object
    (for those, [truth] below asks the object). *)
Definition truthy (v : Val) : bool :=
  match v with
  | VNone => false
  | VBool b => b
  | VInt z => negb (z =? 0)%Z
  | VStr s => negb (String.eqb s "")
  | VTuple items => match items with [] => false | _ => true end
  | VDict d => negb (bool_decide (d = ∅))
  | VFunc _ | VExn _ | VEvent _ | VRef _ => true
  end.

(** [isinstance(e, Throwable)]. *)
Definition isThrowable (e : Exn) : bool :=
  match e with
  | PyError _ _ | PyErrorU _ _ | OldStyleInstance _ => false
  | JThrowable _ _ | ExecutionException _ _ | CancellationException => true
  end.

(** Whether the clause [except BaseException] matches a failure: it
    matches the instances of classes derived from [BaseException], and
    neither a Java throwable nor an instance of an old-style class. *)
Definition isBaseException (e : Exn) : bool :=
  match e with
  | PyError _ _ | PyErrorU _ _ => true
  | OldStyleInstance _ | JThrowable _ _ | ExecutionException _ _
  | CancellationException => false
  end.

Definition TypeError (text : string) : Exn := PyError "TypeError" text.
Definition AttributeError (text : string) : Exn := PyError "AttributeError" text.

(** [Throwable.toString()]: the class name, followed by the detail
    message when there is one. *)
Definition Throwable_toString (cls msg : string) : string :=
  if String.eqb msg "" then cls else cls +:+ ": " +:+ msg.

Definition hex_digit (n : N) : string :=
  match n with
  | 0 => "0" | 1 => "1" | 2 => "2" | 3 => "3" | 4 => "4" | 5 => "5"
  | 6 => "6" | 7 => "7" | 8 => "8" | 9 => "9" | 10 => "a" | 11 => "b"
  | 12 => "c" | 13 => "d" | 14 => "e" | _ => "f"
  end%N.

(** The position and value of the first byte of a byte string that is
    not ASCII, if any. *)
Fixpoint first_non_ascii (s : string) (i : nat) : option (nat * N) :=
  match s with
  | EmptyString => None
  | String c rest =>
      if (N_of_ascii c <? 128)%N then first_non_ascii rest (S i)
      else Some (i, N_of_ascii c)
  end.

(** The decoding of a byte string with the ASCII codec, which is how
    Python 2 turns a byte string into a unicode string by default. *)
Definition decode_ascii (bytes : string) : Exn + string :=
  match first_non_ascii bytes 0 with
  | None => inr bytes
  | Some (i, b) =>
      inl (PyError "UnicodeDecodeError"
             ("'ascii' codec can't decode byte 0x" +:+ hex_digit (b / 16) +:+
              hex_digit (b mod 16) +:+ " in position " +:+ pretty i +:+
              ": ordinal not in range(128)"))
  end.

(** [unicode(e)]: the message of a Python exception, decoded when it is a
    byte string, which fails on a byte that is not ASCII; the [toString()]
    of a Java throwable. *)
Definition unicode (e : Exn) : Exn + string :=
  match e with
  | PyError _ text => decode_ascii text
  | PyErrorU _ text => inr text
  | OldStyleInstance cls => inr ("<" +:+ cls +:+ " instance>")
  | JThrowable cls msg => inr (Throwable_toString cls msg)
  | ExecutionException m _ =>
      inr (Throwable_toString "java.util.concurrent.ExecutionException"
             (default "" m))
  | CancellationException =>
      inr "java.util.concurrent.CancellationException"
  end.

(** The two constructors of [ExecutionException] the module uses:
    [ExecutionException(cause)], whose message is [cause.toString()], and
    [ExecutionException(message, cause)]. *)
Definition ExecutionException_of_cause (cause : Exn) : Exn :=
  ExecutionException
    (Some (match cause with
           | JThrowable cls msg => Throwable_toString cls msg
           | ExecutionException m _ =>
               Throwable_toString "java.util.concurrent.ExecutionException"
                 (default "" m)
           | CancellationException => "java.util.concurrent.CancellationException"
           | PyError cls _ | PyErrorU cls _ | OldStyleInstance cls => cls
           end))
    (Some cause).

Definition ExecutionException_of_message (message : string) (cause : option Exn) : Exn :=
  ExecutionException (Some message) cause.

(** ** Objects, heap and world *)

Inductive Class : Type :=
| RunnableWrapper
| AsyncResult
| TaskExecutor
| LinkedBlockingDeque
| Thread.

Definition class_name (c : Class) : string :=
  match c with
  | RunnableWrapper => "RunnableWrapper"
  | AsyncResult => "AsyncResult"
  | TaskExecutor => "TaskExecutor"
  | LinkedBlockingDeque => "LinkedBlockingDeque"
  | Thread => "Thread"
  end.

(** Data attributes declared in a class body.  Only [TaskExecutor] has
    some: [beforeCallback = None] and [afterCallback = None]. *)
Definition class_attr (c : Class) (name : string) : option Val :=
  match c with
  | TaskExecutor =>
      if bool_decide (name = "beforeCallback") then Some VNone
      else if bool_decide (name = "afterCallback") then Some VNone
      else None
  | _ => None
  end.

Record Obj : Type := { cls : Class; attrs : gmap string Val }.

(** What the code does to its collaborators, in order. *)
Inductive Effect : Type :=
| Called (f : nat) (args : list Val) (kwargs : gmap string Val)
| Instantiate (c : Class) (args : list Val) (kwargs : gmap string Val)
| PrintExc (e : Exn)
| PoolInit (coreThreads maxThreads keepalive queue : Val)
| PoolExecute (runnable : Val)
| EdtInvokeLater (runnable : Val)
| EdtInvokeAndWait (runnable : Val).

Record World : Type := {
  heap : gmap nat Obj;
  trace : list Effect;
  isEventDispatchThread : bool
}.

Definition set_heap (h : gmap nat Obj) (w : World) : World :=
  {| heap := h; trace := trace w; isEventDispatchThread := isEventDispatchThread w |}.

Definition log (ev : Effect) (w : World) : World :=
  {| heap := heap w; trace := trace w ++ [ev];
     isEventDispatchThread := isEventDispatchThread w |}.

(** ** The monad *)

(** A computation returns, raises, or never comes back ([Hang]: the body
    of a callable that does not terminate, or a wait on an event nobody
    sets). *)
Inductive Res (A : Type) : Type :=
| Ok (a : A)
| Raise (e : Exn)
| Hang.
Arguments Ok {A} a.
Arguments Raise {A} e.
Arguments Hang {A}.

Definition M (A : Type) : Type := World -> Res A * World.

Definition ret {A} (a : A) : M A := fun w => (Ok a, w).
Definition raise {A} (e : Exn) : M A := fun w => (Raise e, w).
Definition hang {A} : M A := fun w => (Hang, w).

Definition bind {A B} (c : M A) (k : A -> M B) : M B :=
  fun w =>
    match c w with
    | (Ok a, w') => k a w'
    | (Raise e, w') => (Raise e, w')
    | (Hang, w') => (Hang, w')
    end.

(** [try: c  except C, e: h e], where [matches] tells which failures the
    clause catches; any other failure goes on to the caller. *)
Definition try_except {A} (c : M A) (matches : Exn -> bool) (h : Exn -> M A) : M A :=
  fun w =>
    match c w with
    | (Raise e, w') => if matches e then h e w' else (Raise e, w')
    | r => r
    end.

Definition effect (ev : Effect) : M unit := fun w => (Ok tt, log ev w).

Declare Scope py_scope.
Delimit Scope py_scope with py.
Notation "x <- c1 ;; c2" := (bind c1 (fun x => c2))
  (at level 100, c1 at next level, right associativity) : py_scope.
Notation "c1 ;;; c2" := (bind c1 (fun _ => c2))
  (at level 100, right associativity) : py_scope.
Local Open Scope py_scope.

(** ** Attribute access *)

(** [o.name]: the instance dictionary first, then the class body. *)
Definition getattr (o : Val) (name : string) : M Val :=
  fun w =>
    match o with
    | VRef l =>
        match heap w !! l with
        | Some ob =>
            match attrs ob !! name with
            | Some v => (Ok v, w)
            | None =>
                match class_attr (cls ob) name with
                | Some v => (Ok v, w)
                | None =>
                    (Raise (AttributeError ("'" +:+ class_name (cls ob) +:+
                       "' object has no attribute '" +:+ name +:+ "'")), w)
                end
            end
        | None => (Raise (AttributeError name), w)
        end
    | _ => (Raise (AttributeError name), w)
    end.

(** [hasattr(o, name)]. *)
Definition hasattr (o : Val) (name : string) : M bool :=
  fun w =>
    match getattr o name w with
    | (Ok _, w') => (Ok true, w')
    | (_, w') => (Ok false, w')
    end.

(** The object [ob] with attribute [name] bound to [v]. *)
Definition with_attr (name : string) (v : Val) (ob : Obj) : Obj :=
  {| cls := cls ob; attrs := <[name := v]> (attrs ob) |}.

(** [o.name = v]. *)
Definition setattr (o : Val) (name : string) (v : Val) : M unit :=
  fun w =>
    match o with
    | VRef l =>
        match heap w !! l with
        | Some ob => (Ok tt, set_heap (<[l := with_attr name v ob]> (heap w)) w)
        | None => (Raise (AttributeError name), w)
        end
    | _ => (Raise (AttributeError name), w)
    end.

(** Allocation of a bare instance of a class. *)
Definition new_object (c : Class) : M Val :=
  fun w =>
    let l := fresh (dom (heap w)) in
    (Ok (VRef l), set_heap (<[l := {| cls := c; attrs := ∅ |}]> (heap w)) w).

(** ** Calling Python functions *)

(** The header of a [def]: positional parameters, defaults of the
    trailing ones, and the names after [*] and [**] if present. *)
Record Signature : Type := {
  fname : string;
  params : list string;
  defaults : gmap string Val;
  star_args : option string;
  star_kwargs : option string
}.

Definition plural (n : nat) : string :=
  if bool_decide (n = 1%nat) then "argument" else "arguments".

(** Binding of the actual arguments of a call to the parameters, after
    the rules of Python 2: positional values fill the parameters from the
    left, the surplus goes to [*args] or is a [TypeError]; a keyword
    naming a parameter fills it unless a positional value already did; any
    other keyword goes to [**kwargs] or is a [TypeError]; parameters left
    empty take their default or are a [TypeError]. *)
Definition bind_args (s : Signature) (pos : list Val) (kw : gmap string Val)
  : Exn + gmap string Val :=
  let n := length (params s) in
  let given := (length pos + size kw)%nat in
  let by_position : gmap string Val := list_to_map (zip (params s) pos) in
  let surplus := drop n pos in
  let named := filter (λ kv, kv.1 ∈ params s) kw in
  let others := filter (λ kv, kv.1 ∉ params s) kw in
  let bound := by_position ∪ named ∪ defaults s in
  if bool_decide (surplus ≠ [] ∧ star_args s = None) then
    inl (TypeError (fname s +:+ "() takes " +:+
           (if bool_decide (defaults s = ∅) then "exactly " else "at most ") +:+
           pretty n +:+ " " +:+ plural n +:+ " (" +:+ pretty given +:+ " given)"))
  else if bool_decide (dom by_position ∩ dom named ≠ ∅) then
    inl (TypeError (fname s +:+ "() got multiple values for keyword argument '" +:+
           default "" (head (filter (λ p, p ∈ dom by_position ∩ dom named) (params s)))
           +:+ "'"))
  else if bool_decide (others ≠ ∅ ∧ star_kwargs s = None) then
    inl (TypeError (fname s +:+ "() got an unexpected keyword argument '" +:+
           default "" (head (map_to_list others).*1) +:+ "'"))
  else if bool_decide (Forall (λ p, p ∈ dom bound) (params s)) then
    let with_star :=
      match star_args s with
      | Some a => <[a := VTuple surplus]> bound
      | None => bound
      end in
    inr (match star_kwargs s with
         | Some k => <[k := VDict others]> with_star
         | None => with_star
         end)
  else
    inl (TypeError (fname s +:+ "() takes " +:+
           (if bool_decide (defaults s = ∅ ∧ star_args s = None)
            then "exactly " else "at least ") +:+
           pretty (n - size (defaults s))%nat +:+ " " +:+
           plural (n - size (defaults s))%nat +:+
           " (" +:+ pretty given +:+ " given)")).

(** A local variable of a running function. *)
Definition local (locals : gmap string Val) (name : string) : Val :=
  default VNone (locals !! name).

(** A Python-defined function: its header and its body over the bound
    locals. *)
Definition def (s : Signature) (body : gmap string Val -> M Val)
  (pos : list Val) (kw : gmap string Val) : M Val :=
  match bind_args s pos kw with
  | inl e => raise e
  | inr locals => body locals
  end.

(** Instantiation of a class: allocate, run its [__init__] on the new
    instance and the arguments, hand back the instance.  The trace keeps
    the arguments of the instantiation. *)
Definition instantiate (c : Class)
  (init : list Val -> gmap string Val -> M Val)
  (pos : list Val) (kw : gmap string Val) : M Val :=
  effect (Instantiate c pos kw) ;;;
  self <- new_object c ;;
  (init (self :: pos) kw ;;;
   ret self).

(** Argument unpacking at a call site: [*v] wants a sequence, [**v] a
    mapping. *)
Definition unpack_args (v : Val) : M (list Val) :=
  match v with
  | VTuple items => ret items
  | _ => raise (TypeError "argument after * must be a sequence")
  end.

Definition unpack_kwargs (v : Val) : M (gmap string Val) :=
  match v with
  | VDict d => ret d
  | _ => raise (TypeError "argument after ** must be a mapping")
  end.

(** [d.pop(key, dflt)]: the value and the dictionary without the key. *)
Definition dict_pop (key : string) (dflt : Val) (d : gmap string Val)
  : Val * gmap string Val :=
  (default dflt (d !! key), delete key d).

(** The dictionary a [**kwargs] parameter is bound to. *)
Definition as_dict (v : Val) : gmap string Val :=
  match v with VDict d => d | _ => ∅ end.

(** [unicode(v)] for values stored where an exception is expected. *)
Definition unicode_val (v : Val) : Exn + string :=
  match v with
  | VExn e => unicode e
  | VStr s => decode_ascii s
  | VNone => inr "None"
  | VBool true => inr "True"
  | VBool false => inr "False"
  | _ => inr "<object>"
  end.

(** The number of elements of a queue object. *)
Definition deque_size (ob : Obj) : Z :=
  match attrs ob !! "size" with
  | Some (VInt n) => n
  | _ => 0
  end.

(** Truth value testing, as [if x:], [not x] and [x or y] perform it: an
    object is asked, and a Java collection is false when it is empty. *)
Definition truth (v : Val) : M bool :=
  fun w =>
    (Ok (match v with
         | VRef l =>
             match heap w !! l with
             | Some ob =>
                 match cls ob with
                 | LinkedBlockingDeque => negb (deque_size ob =? 0)%Z
                 | _ => true
                 end
             | None => true
             end
         | _ => truthy v
         end), w).

(** ** [threading.Event], stored in attribute [attr] of [holder] *)

Definition Event_new : Val := VEvent false.

Definition Event_set (holder : Val) (attr : string) : M unit :=
  ev <- getattr holder attr ;;
  match ev with
  | VEvent _ => setattr holder attr (VEvent true)
  | _ => raise (AttributeError "set")
  end.

(** [wait(timeout)] comes back at once when the flag is set, after the
    timeout when there is one, and never otherwise. *)
Definition Event_wait (holder : Val) (attr : string) (timeout : option Q) : M unit :=
  ev <- getattr holder attr ;;
  match ev with
  | VEvent true => ret tt
  | VEvent false =>
      match timeout with
      | Some _ => ret tt
      | None => hang
      end
  | _ => raise (AttributeError "wait")
  end.

(** ** The module *)

Section Program.

(** The bodies of the callables handed to the module: what callable [f]
    does on given arguments (return, raise, or not terminate).  A callable
    acts on the module's objects only through what it returns or raises. *)
Variable code : nat -> list Val -> gmap string Val -> Res Val.

(** Calling the value [f] on positional and keyword arguments. *)
Definition call (f : Val) (pos : list Val) (kw : gmap string Val) : M Val :=
  match f with
  | VFunc n => effect (Called n pos kw) ;;; (fun w => (code n pos kw, w))
  | _ => raise (TypeError "object is not callable")
  end.

(** *** class RunnableWrapper(Runnable) *)

Definition RunnableWrapper___init___sig : Signature :=
  {| fname := "__init__"; params := ["self"; "func"; "args"; "kwargs"];
     defaults := ∅; star_args := None; star_kwargs := None |}.

Definition RunnableWrapper___init__ : list Val -> gmap string Val -> M Val :=
  def RunnableWrapper___init___sig (fun L =>
    setattr (local L "self") "_func" (local L "func") ;;;
    setattr (local L "self") "_args" (local L "args") ;;;
    setattr (local L "self") "_kwargs" (local L "kwargs") ;;;
    ret VNone).

(** The call of [self._func] on the unpacked [self._args] and
    [self._kwargs]. *)
Definition call_func (self : Val) : M Val :=
  f <- getattr self "_func" ;;
  a <- getattr self "_args" ;;
  k <- getattr self "_kwargs" ;;
  kw <- unpack_kwargs k ;;
  pos <- unpack_args a ;;
  call f pos kw.

Definition RunnableWrapper_run (self : Val) : M Val :=
  call_func self ;;;
  ret VNone.

(** *** class AsyncResult(RunnableWrapper, Future) *)

Definition AsyncResult___init___sig : Signature :=
  {| fname := "__init__";
     params := ["self"; "func"; "args"; "kwargs"; "name"; "beforeCallback";
                "afterCallback"];
     defaults := <["name" := VNone]> (<["beforeCallback" := VNone]>
                   (<["afterCallback" := VNone]> ∅));
     star_args := None; star_kwargs := None |}.

Definition AsyncResult___init__ : list Val -> gmap string Val -> M Val :=
  def AsyncResult___init___sig (fun L =>
    RunnableWrapper___init__
      [local L "self"; local L "func"; local L "args"; local L "kwargs";
       local L "name"; local L "beforeCallback"; local L "afterCallback"] ∅ ;;;
    setattr (local L "self") "_event" Event_new ;;;
    ret VNone).

Definition AsyncResult_isDone (self : Val) : M Val :=
  r <- hasattr self "_retval" ;;
  if r then ret (VBool true)
  else e <- hasattr self "_exception" ;; ret (VBool e).

Definition AsyncResult_isCancelled (self : Val) : M Val :=
  f <- getattr self "_func" ;;
  ret (VBool (match f with VNone => true | _ => false end)).

Definition AsyncResult_run (self : Val) : M Val :=
  f <- getattr self "_func" ;;
  t <- truth f ;;
  if negb t then ret VNone
  else
    try_except
      (v <- call_func self ;; setattr self "_retval" v)
      isBaseException
      (fun e => setattr self "_exception" (VExn e) ;;; effect (PrintExc e)) ;;;
    setattr self "_func" VNone ;;;
    Event_set self "_event" ;;;
    ret VNone.

Definition AsyncResult_cancel (self : Val) (mayInterruptIfRunning : Val) : M Val :=
  d <- AsyncResult_isDone self ;;
  t <- truth d ;;
  if (t : bool) then ret (VBool false)
  else
    setattr self "_func" VNone ;;;
    ret (VBool true).

Definition Num_truthy (n : Num) : bool :=
  match n with
  | NInt z => negb (z =? 0)%Z
  | NFloat q => negb (Qeq_bool q 0)
  end.

Definition Num_value (n : Num) : Q :=
  match n with
  | NInt z => inject_Z z
  | NFloat q => q
  end.

(** [unit.toMillis(timeout)]: the Java method takes a [long]; an integer
    in range is passed on, a float or an integer out of range is not
    coerced and the call is a [TypeError]. *)
Definition TimeUnit_toMillis (u : TimeUnit) (n : Num) : Exn + Z :=
  match n with
  | NInt z =>
      if ((- 2 ^ 63 <=? z) && (z <? 2 ^ 63))%Z then inr (toMillis u z)
      else inl (TypeError "toMillis(): 1st arg can't be coerced to long")
  | NFloat _ => inl (TypeError "toMillis(): 1st arg can't be coerced to long")
  end.

(** The first two lines of [get]: [timeout and unit] is false for an
    absent or zero timeout and for an absent unit; otherwise the timeout
    becomes [unit.toMillis(timeout) / 1000.0].  The result is the number
    of seconds handed to [wait], or the failure of the conversion. *)
Definition get_timeout (timeout : option Num) (unit : option TimeUnit)
  : Exn + option Q :=
  match timeout, unit with
  | Some t, Some u =>
      if Num_truthy t then
        match TimeUnit_toMillis u t with
        | inr ms => inr (Some (inject_Z ms / 1000)%Q)
        | inl e => inl e
        end
      else inr (Some (Num_value t))
  | Some t, None => inr (Some (Num_value t))
  | None, _ => inr None
  end.

Definition AsyncResult_get (self : Val) (timeout : option Num) (unit : option TimeUnit)
  : M Val :=
  match get_timeout timeout unit with
  | inl e => raise e
  | inr timeout =>
      Event_wait self "_event" timeout ;;;
      he <- hasattr self "_exception" ;;
      if he then
        e <- getattr self "_exception" ;;
        match e with
        | VExn x =>
            if isThrowable x then raise (ExecutionException_of_cause x)
            else
              match unicode x with
              | inr text => raise (ExecutionException_of_message text None)
              | inl err => raise err
              end
        | _ =>
            match unicode_val e with
            | inr text => raise (ExecutionException_of_message text None)
            | inl err => raise err
            end
        end
      else
        hr <- hasattr self "_retval" ;;
        if negb hr then raise CancellationException
        else getattr self "_retval"
  end.

(** *** class TaskExecutor(ThreadPoolExecutor) *)

Definition TaskExecutor___init___sig : Signature :=
  {| fname := "__init__";
     params := ["self"; "coreThreads"; "maxThreads"; "keepalive"; "queue";
                "beforeCallback"; "afterCallback"];
     defaults := <["coreThreads" := VInt 1]> (<["maxThreads" := VInt 1]>
                   (<["keepalive" := VInt 5]> (<["queue" := VNone]>
                   (<["beforeCallback" := VNone]> (<["afterCallback" := VNone]> ∅)))));
     star_args := None; star_kwargs := None |}.

(** [ThreadPoolExecutor.__init__(self, core, max, keepalive, SECONDS,
    queue)]: the Java constructor takes two [int]s, a [long] and a
    [BlockingQueue], and refuses a negative core size or keepalive, a
    maximum that is not positive, and a maximum below the core size. *)
Definition ThreadPoolExecutor___init__ (core max keepalive queue : Val) : M Val :=
  fun w =>
    match core, max, keepalive, queue with
    | VInt c, VInt m, VInt k, VRef q =>
        if negb ((- 2 ^ 31 <=? c) && (c <? 2 ^ 31) && (- 2 ^ 31 <=? m) && (m <? 2 ^ 31)
                 && (- 2 ^ 63 <=? k) && (k <? 2 ^ 63))%Z then
          (Raise (TypeError "ThreadPoolExecutor(): arguments can't be coerced"), w)
        else
          match heap w !! q with
          | Some {| cls := LinkedBlockingDeque |} =>
              if ((c <? 0) || (m <=? 0) || (m <? c) || (k <? 0))%Z then
                (Raise (JThrowable "java.lang.IllegalArgumentException" ""), w)
              else (Ok VNone, log (PoolInit core max keepalive queue) w)
          | _ =>
              (Raise (TypeError "ThreadPoolExecutor(): arguments can't be coerced"), w)
          end
    | _, _, _, _ =>
        (Raise (TypeError "ThreadPoolExecutor(): arguments can't be coerced"), w)
    end.

Definition TaskExecutor___init__ : list Val -> gmap string Val -> M Val :=
  def TaskExecutor___init___sig (fun L =>
    t <- truth (local L "queue") ;;
    queue <- (if (t : bool) then ret (local L "queue")
              else new_object LinkedBlockingDeque) ;;
    ThreadPoolExecutor___init__ (local L "coreThreads") (local L "maxThreads")
      (local L "keepalive") queue ;;;
    setattr (local L "self") "beforeCallback" (local L "beforeCallback") ;;;
    setattr (local L "self") "afterCallback" (local L "afterCallback") ;;;
    ret VNone).

(** [ThreadPoolExecutor.execute]: the runnable is handed to the pool. *)
Definition execute (self : Val) (runnable : Val) : M Val :=
  effect (PoolExecute runnable) ;;;
  ret VNone.

Definition TaskExecutor_beforeExecute (self thread runnable : Val) : M Val :=
  bc <- getattr self "beforeCallback" ;;
  t <- truth bc ;;
  (if (t : bool) then call bc [thread; runnable] ∅ else ret VNone) ;;;
  rc <- getattr runnable "beforeCallback" ;;
  t <- truth rc ;;
  (if (t : bool) then call rc [thread; runnable] ∅ else ret VNone) ;;;
  ret VNone.

Definition TaskExecutor_afterExecute (self runnable throwable : Val) : M Val :=
  ac <- getattr self "afterCallback" ;;
  t <- truth ac ;;
  (if (t : bool) then call ac [runnable; throwable] ∅ else ret VNone) ;;;
  rc <- getattr runnable "afterCallback" ;;
  t <- truth rc ;;
  (if (t : bool) then call rc [runnable; throwable] ∅ else ret VNone) ;;;
  ret VNone.

Definition runTask_sig : Signature :=
  {| fname := "runTask"; params := ["self"; "func"]; defaults := ∅;
     star_args := Some "args"; star_kwargs := Some "kwargs" |}.

Definition TaskExecutor_runTask : list Val -> gmap string Val -> M Val :=
  def runTask_sig (fun L =>
    result <- instantiate AsyncResult AsyncResult___init__
                [local L "func"; local L "args"; local L "kwargs"] ∅ ;;
    execute (local L "self") result ;;;
    ret result).

Definition runNamedTask_sig : Signature :=
  {| fname := "runNamedTask"; params := ["self"; "func"; "name"]; defaults := ∅;
     star_args := Some "args"; star_kwargs := Some "kwargs" |}.

Definition TaskExecutor_runNamedTask : list Val -> gmap string Val -> M Val :=
  def runNamedTask_sig (fun L =>
    let kwargs := as_dict (local L "kwargs") in
    let '(beforeCallback, kwargs) := dict_pop "beforeCallback" VNone kwargs in
    let '(afterCallback, kwargs) := dict_pop "afterCallback" VNone kwargs in
    result <- instantiate AsyncResult AsyncResult___init__
                [local L "func"; local L "args"; VDict kwargs; local L "name";
                 beforeCallback; afterCallback] ∅ ;;
    execute (local L "self") result ;;;
    ret result).

(** The closures the decorators return take any arguments. *)
Definition wrapper_sig (name : string) : Signature :=
  {| fname := name; params := []; defaults := ∅;
     star_args := Some "args"; star_kwargs := Some "kwargs" |}.

(** [task(self, func)] returns [wrapper]; [self] and [func] are its free
    variables. *)
Definition TaskExecutor_task_wrapper (self func : Val)
  : list Val -> gmap string Val -> M Val :=
  def (wrapper_sig "wrapper") (fun L =>
    pos <- unpack_args (local L "args") ;;
    TaskExecutor_runTask (self :: func :: pos) (as_dict (local L "kwargs"))).

(** [namedTask(self, name, beforeCallback, afterCallback)] returns [outer],
    and [outer(func)] returns [inner]. *)
Definition TaskExecutor_namedTask_inner (self name beforeCallback afterCallback func : Val)
  : list Val -> gmap string Val -> M Val :=
  def (wrapper_sig "inner") (fun L =>
    let kwargs := as_dict (local L "kwargs") in
    let kwargs := <["beforeCallback" := beforeCallback]> kwargs in
    let kwargs := <["afterCallback" := afterCallback]> kwargs in
    pos <- unpack_args (local L "args") ;;
    TaskExecutor_runNamedTask (self :: func :: name :: pos) kwargs).

(** *** The dispatch functions *)

(** [SwingUtilities.isEventDispatchThread()]. *)
Definition onEventDispatchThread : M bool :=
  fun w => (Ok (isEventDispatchThread w), w).

(** [SwingUtilities.invokeLater(r)]: [r] is queued, the caller goes on. *)
Definition SwingUtilities_invokeLater (r : Val) : M Val :=
  effect (EdtInvokeLater r) ;;;
  ret VNone.

(** [SwingUtilities.invokeAndWait(r)]: the dispatch thread runs [r.run()]
    while the caller waits; here [r] is always an [AsyncResult]. *)
Definition SwingUtilities_invokeAndWait (r : Val) : M Val :=
  effect (EdtInvokeAndWait r) ;;;
  AsyncResult_run r.

Definition execInEDT_sig : Signature :=
  {| fname := "execInEDT"; params := ["func"]; defaults := ∅;
     star_args := Some "args"; star_kwargs := Some "kwargs" |}.

Definition execInEDT : list Val -> gmap string Val -> M Val :=
  def execInEDT_sig (fun L =>
    edt <- onEventDispatchThread ;;
    if (edt : bool) then
      pos <- unpack_args (local L "args") ;;
      call (local L "func") pos (as_dict (local L "kwargs"))
    else
      holder <- instantiate AsyncResult AsyncResult___init__
                  [local L "func"; local L "args"; local L "kwargs"] ∅ ;;
      SwingUtilities_invokeAndWait holder ;;;
      AsyncResult_get holder None None).

Definition invokeInEDT_wrapper (func : Val) : list Val -> gmap string Val -> M Val :=
  def (wrapper_sig "wrapper") (fun L =>
    pos <- unpack_args (local L "args") ;;
    execInEDT (func :: pos) (as_dict (local L "kwargs"))).

Definition invokeLater_wrapper (func : Val) : list Val -> gmap string Val -> M Val :=
  def (wrapper_sig "wrapper") (fun L =>
    edt <- onEventDispatchThread ;;
    if (edt : bool) then
      pos <- unpack_args (local L "args") ;;
      call func pos (as_dict (local L "kwargs")) ;;;
      ret VNone
    else
      wrapper <- instantiate RunnableWrapper RunnableWrapper___init__
                   [func; local L "args"; local L "kwargs"] ∅ ;;
      SwingUtilities_invokeLater wrapper ;;;
      ret VNone).

Definition asyncSwingTask_wrapper (func : Val) : list Val -> gmap string Val -> M Val :=
  def (wrapper_sig "wrapper") (fun L =>
    holder <- instantiate AsyncResult AsyncResult___init__
                [func; local L "args"; local L "kwargs"] ∅ ;;
    SwingUtilities_invokeLater holder ;;;
    ret holder).

End Program.

(** ** Vocabulary of the statements *)

(** A unit as construction is meant to leave it: the callable, its
    positional tuple and keyword mapping stored, the event unset, neither
    a return value nor an exception recorded. *)
Record pending_unit (ob : Obj) (f : nat) (pos : list Val) (kw : gmap string Val)
  : Prop := {
  pending_func : attrs ob !! "_func" = Some (VFunc f);
  pending_args : attrs ob !! "_args" = Some (VTuple pos);
  pending_kwargs : attrs ob !! "_kwargs" = Some (VDict kw);
  pending_event : attrs ob !! "_event" = Some (VEvent false);
  pending_retval : attrs ob !! "_retval" = None;
  pending_exception : attrs ob !! "_exception" = None
}.

(** The four shapes a unit goes through. *)
Inductive Phase : Type :=
| Pending
| Cancelled
| Value (v : Val)
| Failure (e : Exn).

(** The object a pending unit [ob] has become in each phase: what
    [cancel] and [run] assign, in their order. *)
Definition in_phase (ob : Obj) (p : Phase) : Obj :=
  match p with
  | Pending => ob
  | Cancelled => with_attr "_func" VNone ob
  | Value v =>
      with_attr "_event" (VEvent true)
        (with_attr "_func" VNone (with_attr "_retval" v ob))
  | Failure e =>
      with_attr "_event" (VEvent true)
        (with_attr "_func" VNone (with_attr "_exception" (VExn e) ob))
  end.

(** The recorded return value and exception of the object at [l]. *)
Definition retval_at (w : World) (l : nat) : option Val :=
  ob ← heap w !! l; attrs ob !! "_retval".

Definition exception_at (w : World) (l : nat) : option Val :=
  ob ← heap w !! l; attrs ob !! "_exception".

(** The flag of the event of the object at [l]. *)
Definition signal_at (w : World) (l : nat) : option Val :=
  ob ← heap w !! l; attrs ob !! "_event".

(** The calls a client can make on a unit. *)
Inductive Op : Type :=
| OpRun
| OpCancel (mayInterruptIfRunning : Val)
| OpGet (timeout : option Num) (unit : option TimeUnit)
| OpIsDone
| OpIsCancelled.

Definition exec_op (code : nat -> list Val -> gmap string Val -> Res Val)
  (self : Val) (op : Op) : M Val :=
  match op with
  | OpRun => AsyncResult_run code self
  | OpCancel m => AsyncResult_cancel self m
  | OpGet t u => AsyncResult_get self t u
  | OpIsDone => AsyncResult_isDone self
  | OpIsCancelled => AsyncResult_isCancelled self
  end.

(** The world after a sequence of such calls, whatever each one gave. *)
Fixpoint exec_ops (code : nat -> list Val -> gmap string Val -> Res Val)
  (self : Val) (ops : list Op) (w : World) : World :=
  match ops with
  | [] => w
  | op :: rest => exec_ops code self rest (exec_op code self op w).2
  end.

(** What [get] raises for a recorded exception [e]. *)
Definition get_failure (e : Exn) : Exn :=
  if isThrowable e then ExecutionException_of_cause e
  else
    match unicode e with
    | inr text => ExecutionException_of_message text None
    | inl err => err
    end.

(** What each call does to a unit in a given phase, when the callable's
    body has outcome [body]: the result, the next phase and the effects.
    [exec_op_in_phase] below proves that this is what the code does. *)
Definition step_phase (body : Res Val) (f : nat) (pos : list Val)
  (kw : gmap string Val) (op : Op) (p : Phase) : Res Val * Phase * list Effect :=
  match op, p with
  | OpRun, Pending =>
      match body with
      | Ok v => (Ok VNone, Value v, [Called f pos kw])
      | Raise e =>
          if isBaseException e
          then (Ok VNone, Failure e, [Called f pos kw; PrintExc e])
          else (Raise e, Pending, [Called f pos kw])
      | Hang => (Hang, Pending, [Called f pos kw])
      end
  | OpRun, _ => (Ok VNone, p, [])
  | OpCancel _, (Pending | Cancelled) => (Ok (VBool true), Cancelled, [])
  | OpCancel _, _ => (Ok (VBool false), p, [])
  | OpGet t u, _ =>
      match get_timeout t u with
      | inl err => (Raise err, p, [])
      | inr timeout =>
          match p with
          | Pending | Cancelled =>
              match timeout with
              | Some _ => (Raise CancellationException, p, [])
              | None => (Hang, p, [])
              end
          | Value v => (Ok v, p, [])
          | Failure e => (Raise (get_failure e), p, [])
          end
      end
  | OpIsDone, (Pending | Cancelled) => (Ok (VBool false), p, [])
  | OpIsDone, _ => (Ok (VBool true), p, [])
  | OpIsCancelled, Pending => (Ok (VBool false), p, [])
  | OpIsCancelled, _ => (Ok (VBool true), p, [])
  end.

(** The phase after a sequence of calls. *)
Fixpoint phase_after (body : Res Val) (f : nat) (pos : list Val)
  (kw : gmap string Val) (ops : list Op) (p : Phase) : Phase :=
  match ops with
  | [] => p
  | op :: rest => phase_after body f pos kw rest (step_phase body f pos kw op p).1.2
  end.

(** The world with the object at [l] replaced and effects appended. *)
Definition world_with (w : World) (l : nat) (ob : Obj) (evs : list Effect) : World :=
  {| heap := <[l := ob]> (heap w); trace := trace w ++ evs;
     isEventDispatchThread := isEventDispatchThread w |}.

(** An [ExecutionException] carries the failure [e]: as its cause, or as
    its message, the text [unicode(e)]. *)
Definition carries (x : Exn) (e : Exn) : Prop :=
  match x with
  | ExecutionException message cause =>
      cause = Some e ∨ ∃ text, unicode e = inr text ∧ message = Some text
  | _ => False
  end.

(** Whether the outcome of a callable's body lets [run] go to its end:
    the body returns, or raises what [except BaseException] catches. *)
Definition settles (body : Res Val) : bool :=
  match body with
  | Ok _ => true
  | Raise e => isBaseException e
  | Hang => false
  end.

(** Whether the unit at [l] still holds its callable, as [run] tests it. *)
Definition work_unit_present (w : World) (l : nat) : bool :=
  match heap w !! l with
  | Some ob =>
      match attrs ob !! "_func" with
      | Some fv => truthy fv
      | None => false
      end
  | None => false
  end.

Definition is_get (op : Op) : bool :=
  match op with
  | OpGet _ _ => true
  | _ => false
  end.

(** The two bytes of the UTF-8 encoding of e with acute accent. *)
Definition e_acute : string :=
  String (ascii_of_nat 195) (String (ascii_of_nat 169) EmptyString).

(** ** Sample callables and units

    Callable 0 adds two integers, callable 1 raises [ValueError("boom")],
    callable 2 throws a Java exception, callables 3 and 4 are hooks that
    return [None], callable 5 raises a [ValueError] whose message is the
    byte string [e_acute], callable 6 raises an instance of an old-style
    class. *)
Definition sample_code (f : nat) (pos : list Val) (kw : gmap string Val) : Res Val :=
  match f with
  | 0%nat =>
      match pos with
      | [VInt a; VInt b] => Ok (VInt (a + b))
      | _ => Raise (TypeError "<lambda>() takes exactly 2 arguments")
      end
  | 1%nat => Raise (PyError "ValueError" "boom")
  | 2%nat => Raise (JThrowable "java.lang.IllegalStateException" "boom")
  | 5%nat => Raise (PyError "ValueError" e_acute)
  | 6%nat => Raise (OldStyleInstance "Legacy")
  | _ => Ok VNone
  end.

(** The unit [java.util.concurrent.TimeUnit.SECONDS]; the product
    saturates at the bounds of [long]. *)
Definition SECONDS : TimeUnit :=
  {| toMillis := fun d =>
       if (9223372036854775 <? d)%Z then (2 ^ 63 - 1)%Z
       else if (d <? - 9223372036854775)%Z then (- 2 ^ 63)%Z
       else (d * 1000)%Z |}.

(** A unit holding callable [f] and the positional arguments [pos], with
    the attributes the two [__init__] bodies assign. *)
Definition sample_unit (f : nat) (pos : list Val) : Obj :=
  {| cls := AsyncResult;
     attrs := <["_func" := VFunc f]> (<["_args" := VTuple pos]>
                (<["_kwargs" := VDict ∅]> (<["_event" := Event_new]> ∅))) |}.

(** A world whose heap holds that unit at address 0, off the dispatch
    thread. *)
Definition sample_world (f : nat) (pos : list Val) : World :=
  {| heap := {[ 0%nat := sample_unit f pos ]}; trace := [];
     isEventDispatchThread := false |}.

(** An empty world, on or off the dispatch thread. *)
Definition empty_world (edt : bool) : World :=
  {| heap := ∅; trace := []; isEventDispatchThread := edt |}.

(** A pool made by [TaskExecutor()] with no hooks (the executor is at
    address 0, its queue at 1), and a runnable made by
    [RunnableWrapper(f, (3, 4), {})] for callable 0 (at address 2). *)
Definition pool_world : World :=
  (instantiate RunnableWrapper RunnableWrapper___init__
     [VFunc 0; VTuple [VInt 3; VInt 4]; VDict ∅] ∅
     (instantiate TaskExecutor TaskExecutor___init__ [] ∅ (empty_world false)).2).2.

(** The call a hook point makes for a hook value: none when the hook is
    [None]. *)
Definition hook_call (hook : Val) (args : list Val) : list Effect :=
  match hook with
  | VFunc g => [Called g args ∅]
  | _ => []
  end.

(** A pool whose executor (address 0) has [pool_hook] as both pool-wide
    hooks, with a unit (address 1) that carries [unit_hook] as both of its
    own hooks. *)
Definition hooked_world (pool_hook unit_hook : Val) : World :=
  {| heap :=
       <[0%nat := {| cls := TaskExecutor;
                     attrs := <["beforeCallback" := pool_hook]>
                                (<["afterCallback" := pool_hook]> ∅) |}]>
         (<[1%nat := with_attr "beforeCallback" unit_hook
                       (with_attr "afterCallback" unit_hook
                          (sample_unit 0 [VInt 3; VInt 4]))]> ∅);
     trace := []; isEventDispatchThread := false |}.

(** A pool made by [TaskExecutor(afterCallback=h)] for the hook callable
    3 (the executor is at address 0, its queue at 1), and a runnable made
    by [RunnableWrapper(f, (3, 4), {})] for callable 0 (at address 2). *)
Definition after_hook_world : World :=
  (instantiate RunnableWrapper RunnableWrapper___init__
     [VFunc 0; VTuple [VInt 3; VInt 4]; VDict ∅] ∅
     (instantiate TaskExecutor TaskExecutor___init__ []
        (<["afterCallback" := VFunc 3]> ∅) (empty_world false)).2).2.

(** A heap holding one queue of [n] elements, at address 0. *)
Definition queue_world (n : Z) : World :=
  {| heap := <[0%nat := {| cls := LinkedBlockingDeque;
                           attrs := <["size" := VInt n]> ∅ |}]> ∅;
     trace := [];
     isEventDispatchThread := false |}.

(** * Properties *)

(** ** Attribute access *)

Lemma class_attr_private c name :
  name ≠ "beforeCallback" → name ≠ "afterCallback" → class_attr c name = None.
Proof.
  intros H1 H2. destruct c; try reflexivity. unfold class_attr.
  rewrite !bool_decide_eq_false_2 by assumption. reflexivity.
Qed.

Lemma with_attr_twice name v v' ob :
  with_attr name v (with_attr name v' ob) = with_attr name v ob.
Proof. unfold with_attr. cbn. f_equal. apply insert_insert_eq. Qed.

Lemma world_with_same w l ob :
  heap w !! l = Some ob → world_with w l ob [] = w.
Proof.
  intros Hl. destruct w as [h t e]. unfold world_with. cbn in *.
  rewrite insert_id by assumption. rewrite app_nil_r. reflexivity.
Qed.

Lemma in_phase_retval ob f pos kw p :
  pending_unit ob f pos kw →
  attrs (in_phase ob p) !! "_retval" = match p with Value v => Some v | _ => None end.
Proof.
  intros [Hf Ha Hk He Hr Hx]. destruct p; cbn;
    rewrite ?lookup_insert_eq, ?lookup_insert_ne by done;
    rewrite ?lookup_insert_eq; auto.
Qed.

Lemma in_phase_exception ob f pos kw p :
  pending_unit ob f pos kw →
  attrs (in_phase ob p) !! "_exception" =
    match p with Failure e => Some (VExn e) | _ => None end.
Proof.
  intros [Hf Ha Hk He Hr Hx]. destruct p; cbn;
    rewrite ?lookup_insert_eq, ?lookup_insert_ne by done;
    rewrite ?lookup_insert_eq; auto.
Qed.

Lemma in_phase_func ob f pos kw p :
  pending_unit ob f pos kw →
  attrs (in_phase ob p) !! "_func" =
    Some (match p with Pending => VFunc f | _ => VNone end).
Proof.
  intros [Hf Ha Hk He Hr Hx]. destruct p; cbn;
    rewrite ?lookup_insert_eq, ?lookup_insert_ne by done;
    rewrite ?lookup_insert_eq; auto.
Qed.

Lemma in_phase_event ob f pos kw p :
  pending_unit ob f pos kw →
  attrs (in_phase ob p) !! "_event" =
    Some (VEvent (match p with Value _ | Failure _ => true | _ => false end)).
Proof.
  intros [Hf Ha Hk He Hr Hx]. destruct p; cbn;
    rewrite ?lookup_insert_eq, ?lookup_insert_ne by done;
    rewrite ?lookup_insert_eq; auto.
Qed.

(** ** The methods of a unit, phase by phase *)

Ltac unfold_py :=
  unfold exec_op, AsyncResult_run, AsyncResult_cancel, AsyncResult_get,
    AsyncResult_isDone, AsyncResult_isCancelled, call_func, Event_set,
    Event_wait, call, unpack_args, unpack_kwargs, truth, hasattr, getattr,
    setattr, effect, try_except, bind, ret, raise, hang, set_heap, log,
    world_with.

Ltac eval_py Hl Hf Ha Hk He Hr Hx :=
  repeat (cbn;
    first [ rewrite Hl | rewrite Hf | rewrite Ha | rewrite Hk | rewrite He
          | rewrite Hr | rewrite Hx
          | rewrite lookup_insert_eq
          | rewrite lookup_insert_ne by done
          | rewrite insert_insert_eq
          | rewrite class_attr_private by done ]).

(** The code refines [step_phase]: on a unit in phase [p], each method
    gives the result, the next phase and the effects the summary says. *)
Lemma exec_op_in_phase code w l ob f pos kw p op :
  heap w !! l = Some (in_phase ob p) → pending_unit ob f pos kw →
  exec_op code (VRef l) op w =
    let '(r, p', evs) := step_phase (code f pos kw) f pos kw op p in
    (r, world_with w l (in_phase ob p') evs).
Proof.
  intros Hl Hp. pose proof Hp as [Hf Ha Hk He Hr Hx].
  destruct w as [h t edt]. cbn in Hl.
  destruct op, p; cbn [step_phase];
    try match goal with
        | |- context [code f pos kw] => destruct (code f pos kw) eqn:Hc
        end;
    try match goal with
        | |- context [isBaseException ?e] => destruct (isBaseException e) eqn:Hb
        end;
    try match goal with
        | |- context [get_timeout ?t ?u] =>
            destruct (get_timeout t u) as [?|[?|]] eqn:Ht
        end;
    unfold get_failure;
    try match goal with
        | |- context [isThrowable ?e] => destruct (isThrowable e) eqn:Hthr
        end;
    try match goal with
        | |- context [unicode ?e] => destruct (unicode e) eqn:Hu
        end;
    unfold_py; rewrite ?Ht; cbn in Hl; eval_py Hl Hf Ha Hk He Hr Hx;
    rewrite ?Hc, ?Hb, ?Hthr, ?Hu; eval_py Hl Hf Ha Hk He Hr Hx;
    rewrite ?Hb, ?Hthr, ?Hu; eval_py Hl Hf Ha Hk He Hr Hx;
    rewrite ?with_attr_twice, <- ?app_assoc, ?app_nil_r, ?(insert_id _ _ _ Hl);
    reflexivity.
Qed.

Lemma exec_op_phase_heap code w l ob f pos kw p op :
  heap w !! l = Some (in_phase ob p) → pending_unit ob f pos kw →
  heap (exec_op code (VRef l) op w).2 !! l =
    Some (in_phase ob (step_phase (code f pos kw) f pos kw op p).1.2).
Proof.
  intros Hl Hp. rewrite (exec_op_in_phase _ _ _ _ _ _ _ _ _ Hl Hp).
  destruct (step_phase (code f pos kw) f pos kw op p) as [[r p'] evs]. cbn.
  apply lookup_insert_eq.
Qed.

(** A unit that started pending is, after any calls, in the phase the
    summary computes. *)
Lemma exec_ops_in_phase code l ob f pos kw ops : ∀ w p,
  heap w !! l = Some (in_phase ob p) → pending_unit ob f pos kw →
  heap (exec_ops code (VRef l) ops w) !! l =
    Some (in_phase ob (phase_after (code f pos kw) f pos kw ops p)).
Proof.
  induction ops as [|op ops IH]; intros w p Hl Hp; cbn [exec_ops phase_after].
  - exact Hl.
  - apply IH; [|exact Hp]. apply exec_op_phase_heap; assumption.
Qed.

Lemma step_phase_settled body f pos kw op p :
  p ≠ Pending → ∃ r, step_phase body f pos kw op p = (r, p, []).
Proof.
  intros Hp. destruct op, p; try congruence; cbn; eauto;
    destruct (get_timeout timeout unit) as [?|[?|]]; eauto.
Qed.

Lemma phase_after_settled body f pos kw ops p :
  p ≠ Pending → phase_after body f pos kw ops p = p.
Proof.
  intros Hp. induction ops as [|op ops IH]; cbn; [reflexivity|].
  destruct (step_phase_settled body f pos kw op p Hp) as [r ->]. exact IH.
Qed.

(** Once a unit has left the pending phase no call changes the world. *)
Lemma exec_op_settled code w l ob f pos kw p op :
  heap w !! l = Some (in_phase ob p) → pending_unit ob f pos kw → p ≠ Pending →
  (exec_op code (VRef l) op w).2 = w.
Proof.
  intros Hl Hu Hp. rewrite (exec_op_in_phase _ _ _ _ _ _ _ _ _ Hl Hu).
  destruct (step_phase_settled (code f pos kw) f pos kw op p Hp) as [r ->].
  cbn. apply world_with_same. exact Hl.
Qed.

Lemma exec_ops_settled code w l ob f pos kw p ops :
  heap w !! l = Some (in_phase ob p) → pending_unit ob f pos kw → p ≠ Pending →
  exec_ops code (VRef l) ops w = w.
Proof.
  intros Hl Hu Hp. induction ops as [|op ops IH]; cbn; [reflexivity|].
  rewrite (exec_op_settled _ _ _ _ _ _ _ _ _ Hl Hu Hp). exact IH.
Qed.

(** A unit that still holds its callable is in the pending phase. *)
Lemma present_is_pending w l ob f pos kw p :
  heap w !! l = Some (in_phase ob p) → pending_unit ob f pos kw →
  work_unit_present w l = true → p = Pending.
Proof.
  intros Hl Hu. unfold work_unit_present.
  rewrite Hl, (in_phase_func _ _ _ _ p Hu). destruct p; cbn; congruence.
Qed.

Lemma retval_at_phase w l ob f pos kw p :
  heap w !! l = Some (in_phase ob p) → pending_unit ob f pos kw →
  retval_at w l = match p with Value v => Some v | _ => None end.
Proof.
  intros Hl Hu. unfold retval_at. rewrite Hl. cbn [mbind option_bind].
  apply (in_phase_retval _ _ _ _ _ Hu).
Qed.

Lemma exception_at_phase w l ob f pos kw p :
  heap w !! l = Some (in_phase ob p) → pending_unit ob f pos kw →
  exception_at w l = match p with Failure e => Some (VExn e) | _ => None end.
Proof.
  intros Hl Hu. unfold exception_at. rewrite Hl. cbn [mbind option_bind].
  apply (in_phase_exception _ _ _ _ _ Hu).
Qed.

Lemma signal_at_phase w l ob f pos kw p :
  heap w !! l = Some (in_phase ob p) → pending_unit ob f pos kw →
  signal_at w l =
    Some (VEvent (match p with Value _ | Failure _ => true | _ => false end)).
Proof.
  intros Hl Hu. unfold signal_at. rewrite Hl. cbn [mbind option_bind].
  apply (in_phase_event _ _ _ _ _ Hu).
Qed.

Lemma world_with_lookup w l ob evs : heap (world_with w l ob evs) !! l = Some ob.
Proof. cbn. apply lookup_insert_eq. Qed.

Lemma sample_unit_pending f pos : pending_unit (sample_unit f pos) f pos ∅.
Proof. split; reflexivity. Qed.

Lemma sample_world_lookup f pos : heap (sample_world f pos) !! 0%nat = Some (sample_unit f pos).
Proof. reflexivity. Qed.

(** ** The deferred result *)

Lemma step_run_escaping code w l ob f pos kw e :
  heap w !! l = Some ob → pending_unit ob f pos kw →
  code f pos kw = Raise e → isBaseException e = false →
  AsyncResult_run code (VRef l) w = (Raise e, log (Called f pos kw) w).
Proof.
  intros Hl Hu Hc Hb.
  pose proof (exec_op_in_phase code w l ob f pos kw Pending OpRun Hl Hu) as Hstep.
  cbn [exec_op step_phase] in Hstep. rewrite Hc, Hb in Hstep.
  cbv beta iota in Hstep. rewrite Hstep. f_equal.
  destruct w as [h t edt]. unfold world_with, log. cbn in *.
  rewrite insert_id by exact Hl. reflexivity.
Qed.

(** C6, as the code has it.  When the callable of a pending unit raises a
    failure that [except BaseException] does not match (a Java throwable,
    an instance of an old-style class), [run()] does not record it: the
    failure leaves [run()], neither a return value nor an exception is
    recorded, the event stays unset and the callable stays in place. *)
Theorem run_lets_failure_escape code w l ob f pos kw e :
  heap w !! l = Some ob → pending_unit ob f pos kw →
  code f pos kw = Raise e → isBaseException e = false →
  ∃ w1,
    AsyncResult_run code (VRef l) w = (Raise e, w1) ∧
    trace w1 = (trace w ++ [Called f pos kw])%list ∧
    retval_at w1 l = None ∧
    exception_at w1 l = None ∧
    signal_at w1 l = Some (VEvent false) ∧
    work_unit_present w1 l = true.
Proof.
  intros Hl Hu Hc Hb. exists (log (Called f pos kw) w).
  assert (H1 : heap (log (Called f pos kw) w) !! l = Some (in_phase ob Pending))
    by exact Hl.
  split; [exact (step_run_escaping code w l ob f pos kw e Hl Hu Hc Hb)|].
  split; [reflexivity|].
  split; [exact (retval_at_phase _ _ _ _ _ _ Pending H1 Hu)|].
  split; [exact (exception_at_phase _ _ _ _ _ _ Pending H1 Hu)|].
  split; [exact (signal_at_phase _ _ _ _ _ _ Pending H1 Hu)|].
  unfold work_unit_present. cbn [heap log]. rewrite Hl.
  rewrite (pending_func _ _ _ _ Hu). reflexivity.
Qed.

Lemma run_lets_failure_escape_witness :
  ∃ w1,
    AsyncResult_run sample_code (VRef 0) (sample_world 2 []) =
      (Raise (JThrowable "java.lang.IllegalStateException" "boom"), w1) ∧
    trace w1 = ([] ++ [Called 2 [] ∅])%list ∧
    retval_at w1 0 = None ∧
    exception_at w1 0 = None ∧
    signal_at w1 0 = Some (VEvent false) ∧
    work_unit_present w1 0 = true.
Proof.
  exact (run_lets_failure_escape sample_code (sample_world 2 []) 0 (sample_unit 2 [])
           2 [] ∅ (JThrowable "java.lang.IllegalStateException" "boom")
           (sample_world_lookup _ _) (sample_unit_pending _ _) eq_refl eq_refl).
Defined.

Lemma step_run_raising code w l ob f pos kw e :
  heap w !! l = Some ob → pending_unit ob f pos kw →
  code f pos kw = Raise e → isBaseException e = true →
  AsyncResult_run code (VRef l) w =
    (Ok VNone, world_with w l (in_phase ob (Failure e)) [Called f pos kw; PrintExc e]).
Proof.
  intros Hl Hu Hc Hb.
  pose proof (exec_op_in_phase code w l ob f pos kw Pending OpRun Hl Hu) as Hstep.
  cbn [exec_op step_phase] in Hstep. rewrite Hc, Hb in Hstep. exact Hstep.
Qed.

Lemma step_run_returning code w l ob f pos kw v :
  heap w !! l = Some ob → pending_unit ob f pos kw → code f pos kw = Ok v →
  AsyncResult_run code (VRef l) w =
    (Ok VNone, world_with w l (in_phase ob (Value v)) [Called f pos kw]).
Proof.
  intros Hl Hu Hc.
  pose proof (exec_op_in_phase code w l ob f pos kw Pending OpRun Hl Hu) as Hstep.
  cbn [exec_op step_phase] in Hstep. rewrite Hc in Hstep. exact Hstep.
Qed.

Lemma step_cancel_pending w l ob f pos kw m :
  heap w !! l = Some ob → pending_unit ob f pos kw →
  AsyncResult_cancel (VRef l) m w =
    (Ok (VBool true), world_with w l (in_phase ob Cancelled) []).
Proof.
  intros Hl Hu.
  exact (exec_op_in_phase (λ _ _ _, Hang) w l ob f pos kw Pending (OpCancel m) Hl Hu).
Qed.

(** What a call gives on a unit that has left the pending phase; the
    world is the same afterwards. *)
Lemma exec_op_settled_result code w l ob f pos kw p op :
  heap w !! l = Some (in_phase ob p) → pending_unit ob f pos kw → p ≠ Pending →
  exec_op code (VRef l) op w = ((step_phase (code f pos kw) f pos kw op p).1.1, w).
Proof.
  intros Hl Hu Hp. rewrite (exec_op_in_phase _ _ _ _ _ _ _ _ _ Hl Hu).
  destruct (step_phase_settled (code f pos kw) f pos kw op p Hp) as [r ->].
  cbn. f_equal. apply world_with_same. exact Hl.
Qed.

(** C7, as the code has it.  When the callable of a pending unit raises
    a failure that [except BaseException] does not match, such as a Java
    throwable, the failure leaves [run()] unrecorded, and [get()] does
    not raise an [ExecutionException] that contains it: a [get()] whose
    wait expires raises [CancellationException], and a [get()] without
    timeout does not return. *)
Theorem failure_not_wrapped code w l ob f pos kw e t u q :
  heap w !! l = Some ob → pending_unit ob f pos kw →
  code f pos kw = Raise e → isBaseException e = false →
  get_timeout t u = inr (Some q) →
  ∃ w1,
    AsyncResult_run code (VRef l) w = (Raise e, w1) ∧
    exception_at w1 l = None ∧
    AsyncResult_get (VRef l) t u w1 = (Raise CancellationException, w1) ∧
    ¬ carries CancellationException e ∧
    (AsyncResult_get (VRef l) None None w1).1 = Hang.
Proof.
  intros Hl Hu Hc Hb Ht. exists (log (Called f pos kw) w).
  assert (H1 : heap (log (Called f pos kw) w) !! l = Some (in_phase ob Pending))
    by exact Hl.
  split; [exact (step_run_escaping code w l ob f pos kw e Hl Hu Hc Hb)|].
  split; [exact (exception_at_phase _ _ _ _ _ _ Pending H1 Hu)|].
  split; [|split].
  - pose proof (exec_op_in_phase code _ l ob f pos kw Pending (OpGet t u) H1 Hu) as H.
    cbn [exec_op step_phase] in H. rewrite Ht in H. cbv beta iota in H.
    rewrite H. f_equal. apply world_with_same. exact H1.
  - intros Hcar. exact Hcar.
  - pose proof (exec_op_in_phase code _ l ob f pos kw Pending (OpGet None None) H1 Hu)
      as H.
    cbn [exec_op] in H. rewrite H. reflexivity.
Qed.

Lemma failure_not_wrapped_witness :
  ∃ w1,
    AsyncResult_run sample_code (VRef 0) (sample_world 2 []) =
      (Raise (JThrowable "java.lang.IllegalStateException" "boom"), w1) ∧
    exception_at w1 0 = None ∧
    AsyncResult_get (VRef 0) (Some (NInt 1)) (Some SECONDS) w1
      = (Raise CancellationException, w1) ∧
    ¬ carries CancellationException
        (JThrowable "java.lang.IllegalStateException" "boom") ∧
    (AsyncResult_get (VRef 0) None None w1).1 = Hang.
Proof.
  exact (failure_not_wrapped sample_code (sample_world 2 []) 0 (sample_unit 2 [])
           2 [] ∅ (JThrowable "java.lang.IllegalStateException" "boom")
           (Some (NInt 1)) (Some SECONDS) _
           (sample_world_lookup _ _) (sample_unit_pending _ _) eq_refl eq_refl eq_refl).
Defined.

(** C8.  On a pending unit [cancel()] returns true and leaves the event
    unset, without any effect on the collaborators.  From then on,
    whatever calls follow, [isCancelled()] returns true, [run()] returns
    at once and changes nothing, no return value is ever recorded, the
    event stays unset and the callable is never invoked. *)
Theorem cancel_before_run code w l ob f pos kw m :
  heap w !! l = Some ob → pending_unit ob f pos kw →
  ∃ w1,
    AsyncResult_cancel (VRef l) m w = (Ok (VBool true), w1) ∧
    signal_at w1 l = Some (VEvent false) ∧
    trace w1 = trace w ∧
    ∀ ops,
      let w2 := exec_ops code (VRef l) ops w1 in
      AsyncResult_isCancelled (VRef l) w2 = (Ok (VBool true), w2) ∧
      AsyncResult_run code (VRef l) w2 = (Ok VNone, w2) ∧
      retval_at w2 l = None ∧
      signal_at w2 l = Some (VEvent false) ∧
      trace w2 = trace w.
Proof.
  intros Hl Hu.
  set (w1 := world_with w l (in_phase ob Cancelled) []).
  assert (H1 : heap w1 !! l = Some (in_phase ob Cancelled))
    by apply world_with_lookup.
  assert (Hne : Cancelled ≠ Pending) by discriminate.
  assert (Ht : trace w1 = trace w) by (cbn; apply app_nil_r).
  exists w1. split; [|split; [|split]].
  - exact (step_cancel_pending w l ob f pos kw m Hl Hu).
  - exact (signal_at_phase _ _ _ _ _ _ Cancelled H1 Hu).
  - exact Ht.
  - intros ops. cbv zeta.
    rewrite (exec_ops_settled code w1 l ob f pos kw Cancelled ops H1 Hu Hne).
    split; [|split; [|split; [|split]]].
    + exact (exec_op_settled_result code w1 l ob f pos kw Cancelled OpIsCancelled H1 Hu Hne).
    + exact (exec_op_settled_result code w1 l ob f pos kw Cancelled OpRun H1 Hu Hne).
    + exact (retval_at_phase _ _ _ _ _ _ Cancelled H1 Hu).
    + exact (signal_at_phase _ _ _ _ _ _ Cancelled H1 Hu).
    + exact Ht.
Qed.

Lemma cancel_before_run_witness :
  ∃ w1,
    AsyncResult_cancel (VRef 0) (VBool true) (sample_world 0 [VInt 3; VInt 4])
      = (Ok (VBool true), w1) ∧
    signal_at w1 0 = Some (VEvent false) ∧
    trace w1 = [] ∧
    ∀ ops,
      let w2 := exec_ops sample_code (VRef 0) ops w1 in
      AsyncResult_isCancelled (VRef 0) w2 = (Ok (VBool true), w2) ∧
      AsyncResult_run sample_code (VRef 0) w2 = (Ok VNone, w2) ∧
      retval_at w2 0 = None ∧
      signal_at w2 0 = Some (VEvent false) ∧
      trace w2 = [].
Proof.
  exact (cancel_before_run sample_code (sample_world 0 [VInt 3; VInt 4]) 0
           (sample_unit 0 [VInt 3; VInt 4]) 0 [VInt 3; VInt 4] ∅ (VBool true)
           (sample_world_lookup _ _) (sample_unit_pending _ _)).
Defined.

Lemma hasattr_instance w l ob name v :
  heap w !! l = Some ob → attrs ob !! name = Some v →
  hasattr (VRef l) name w = (Ok true, w).
Proof. intros Hl Ha. unfold hasattr, getattr. rewrite Hl, Ha. reflexivity. Qed.

Lemma hasattr_private_missing w l ob name :
  heap w !! l = Some ob → attrs ob !! name = None →
  name ≠ "beforeCallback" → name ≠ "afterCallback" →
  hasattr (VRef l) name w = (Ok false, w).
Proof.
  intros Hl Ha H1 H2. unfold hasattr, getattr.
  rewrite Hl, Ha, class_attr_private by assumption. reflexivity.
Qed.

(** C9.  On a unit whose return value or exception is recorded,
    [cancel()] returns false and leaves the world as it is: the recorded
    outcome is the same afterwards and every later [get()] gives what it
    would have given before. *)
Theorem cancel_after_done w l m :
  is_Some (retval_at w l) ∨ is_Some (exception_at w l) →
  AsyncResult_cancel (VRef l) m w = (Ok (VBool false), w) ∧
  let w' := (AsyncResult_cancel (VRef l) m w).2 in
  retval_at w' l = retval_at w l ∧
  exception_at w' l = exception_at w l ∧
  ∀ t u, AsyncResult_get (VRef l) t u w' = AsyncResult_get (VRef l) t u w.
Proof.
  intros Hdone.
  assert (Hc : AsyncResult_cancel (VRef l) m w = (Ok (VBool false), w)).
  { unfold retval_at, exception_at in Hdone.
    destruct (heap w !! l) as [ob|] eqn:Hl; cbn in Hdone;
      [|destruct Hdone as [[? ?]|[? ?]]; discriminate].
    unfold AsyncResult_cancel, AsyncResult_isDone, bind, ret.
    destruct (attrs ob !! "_retval") as [v|] eqn:Hr.
    - rewrite (hasattr_instance _ _ _ _ _ Hl Hr). reflexivity.
    - rewrite (hasattr_private_missing _ _ _ _ Hl Hr) by done.
      destruct Hdone as [[? ?]|[x Hx]]; [discriminate|].
      rewrite (hasattr_instance _ _ _ _ _ Hl Hx). reflexivity. }
  split; [exact Hc|]. rewrite Hc. cbn. auto.
Qed.

Lemma cancel_after_done_witness :
  let w := (AsyncResult_run sample_code (VRef 0) (sample_world 0 [VInt 3; VInt 4])).2 in
  retval_at w 0 = Some (VInt 7) ∧
  AsyncResult_cancel (VRef 0) (VBool true) w = (Ok (VBool false), w) ∧
  AsyncResult_get (VRef 0) None None (AsyncResult_cancel (VRef 0) (VBool true) w).2
    = (Ok (VInt 7), w).
Proof.
  cbv zeta.
  destruct (cancel_after_done
              (AsyncResult_run sample_code (VRef 0) (sample_world 0 [VInt 3; VInt 4])).2
              0 (VBool true)) as (Hc & _ & _ & Hget).
  { left. exists (VInt 7). reflexivity. }
  split; [reflexivity|]. split; [exact Hc|].
  rewrite (Hget None None). reflexivity.
Defined.

(** C3, as the code has it.  After [run()] has completed on a pending
    unit whose callable returned [v], the unit is done and [get()] returns
    [v], yet [isCancelled()] returns true although [cancel()] was never
    called: [run()] clears [_func], the attribute [isCancelled()] tests. *)
Theorem isCancelled_after_run code w l ob f pos kw v :
  heap w !! l = Some ob → pending_unit ob f pos kw → code f pos kw = Ok v →
  ∃ w1,
    AsyncResult_run code (VRef l) w = (Ok VNone, w1) ∧
    AsyncResult_isDone (VRef l) w1 = (Ok (VBool true), w1) ∧
    AsyncResult_get (VRef l) None None w1 = (Ok v, w1) ∧
    AsyncResult_isCancelled (VRef l) w1 = (Ok (VBool true), w1).
Proof.
  intros Hl Hu Hc.
  set (w1 := world_with w l (in_phase ob (Value v)) [Called f pos kw]).
  assert (H1 : heap w1 !! l = Some (in_phase ob (Value v)))
    by apply world_with_lookup.
  assert (Hne : Value v ≠ Pending) by discriminate.
  exists w1. split; [|split; [|split]].
  - exact (step_run_returning code w l ob f pos kw v Hl Hu Hc).
  - exact (exec_op_settled_result code w1 l ob f pos kw (Value v) OpIsDone H1 Hu Hne).
  - exact (exec_op_settled_result code w1 l ob f pos kw (Value v) (OpGet None None)
             H1 Hu Hne).
  - exact (exec_op_settled_result code w1 l ob f pos kw (Value v) OpIsCancelled H1 Hu Hne).
Qed.

Lemma isCancelled_after_run_witness :
  ∃ w1,
    AsyncResult_run sample_code (VRef 0) (sample_world 0 [VInt 3; VInt 4]) = (Ok VNone, w1) ∧
    AsyncResult_isDone (VRef 0) w1 = (Ok (VBool true), w1) ∧
    AsyncResult_get (VRef 0) None None w1 = (Ok (VInt 7), w1) ∧
    AsyncResult_isCancelled (VRef 0) w1 = (Ok (VBool true), w1).
Proof.
  exact (isCancelled_after_run sample_code (sample_world 0 [VInt 3; VInt 4]) 0
           (sample_unit 0 [VInt 3; VInt 4]) 0 [VInt 3; VInt 4] ∅ (VInt 7)
           (sample_world_lookup _ _) (sample_unit_pending _ _) eq_refl).
Defined.

(** C4, the claim refuted.  The sample unit is pending and was never
    cancelled; a [get()] whose wait of 0.01 s expires raises
    [CancellationException], the very result it gives on the same unit
    once cancelled: the two are not distinct. *)
Lemma get_timeout_not_distinct :
  let w := sample_world 0 [VInt 3; VInt 4] in
  let cancelled := (AsyncResult_cancel (VRef 0) (VBool false) w).2 in
  (AsyncResult_isCancelled (VRef 0) w).1 = Ok (VBool false) ∧
  (AsyncResult_get (VRef 0) (Some (NFloat (1 # 100))) None w).1
    = Raise CancellationException ∧
  ¬ ((AsyncResult_get (VRef 0) (Some (NFloat (1 # 100))) None w).1 ≠
     (AsyncResult_get (VRef 0) (Some (NFloat (1 # 100))) None cancelled).1).
Proof.
  cbv zeta. split; [reflexivity|]. split; [reflexivity|].
  intros Hne. apply Hne. reflexivity.
Qed.

(** C4, amended.  When [get()] reaches its wait with a timeout (the
    conversion of the timeout has succeeded) and the wait expires on a
    pending unit that was not cancelled, the call raises
    [CancellationException] and leaves the world as it is; a cancelled
    unit gives the same exception.  The caller may call [get()] again:
    once [run()] has completed with the callable returning [v], a
    [get()] that reaches its wait returns [v]. *)
Theorem get_timeout_expired code w l ob f pos kw t u q :
  heap w !! l = Some ob → pending_unit ob f pos kw →
  get_timeout t u = inr (Some q) →
  AsyncResult_get (VRef l) t u w = (Raise CancellationException, w) ∧
  (∀ m, (AsyncResult_get (VRef l) t u (AsyncResult_cancel (VRef l) m w).2).1
        = Raise CancellationException) ∧
  (∀ v t' u' q', code f pos kw = Ok v → get_timeout t' u' = inr q' →
     (AsyncResult_get (VRef l) t' u' (AsyncResult_run code (VRef l) w).2).1 = Ok v).
Proof.
  intros Hl Hu Ht. split; [|split].
  - pose proof (exec_op_in_phase code w l ob f pos kw Pending (OpGet t u) Hl Hu) as H.
    cbn [exec_op step_phase] in H. rewrite Ht in H. cbv beta iota in H.
    rewrite H. f_equal. apply world_with_same. exact Hl.
  - intros m. rewrite (step_cancel_pending w l ob f pos kw m Hl Hu). cbn [snd].
    pose proof (exec_op_in_phase code _ l ob f pos kw Cancelled (OpGet t u)
                  (world_with_lookup w l _ []) Hu) as H.
    cbn [exec_op step_phase] in H. rewrite Ht in H. cbv beta iota in H.
    cbn [in_phase] in *. rewrite H. reflexivity.
  - intros v t' u' q' Hc Ht'.
    rewrite (step_run_returning code w l ob f pos kw v Hl Hu Hc).
    cbn [snd].
    pose proof (exec_op_in_phase code _ l ob f pos kw (Value v) (OpGet t' u')
                  (world_with_lookup w l _ [Called f pos kw]) Hu) as H.
    cbn [exec_op step_phase] in H. rewrite Ht' in H. cbv beta iota in H.
    cbn [in_phase] in *. rewrite H. reflexivity.
Qed.

Lemma get_timeout_expired_witness :
  let w := sample_world 0 [VInt 3; VInt 4] in
  AsyncResult_get (VRef 0) (Some (NFloat (1 # 100))) None w
    = (Raise CancellationException, w) ∧
  (∀ m, (AsyncResult_get (VRef 0) (Some (NFloat (1 # 100))) None
           (AsyncResult_cancel (VRef 0) m w).2).1 = Raise CancellationException) ∧
  (∀ v t' u' q', sample_code 0%nat [VInt 3; VInt 4] ∅ = Ok v →
     get_timeout t' u' = inr q' →
     (AsyncResult_get (VRef 0) t' u' (AsyncResult_run sample_code (VRef 0) w).2).1 = Ok v).
Proof.
  exact (get_timeout_expired sample_code (sample_world 0 [VInt 3; VInt 4]) 0
           (sample_unit 0 [VInt 3; VInt 4]) 0 [VInt 3; VInt 4] ∅
           (Some (NFloat (1 # 100))) None (1 # 100)%Q
           (sample_world_lookup _ _) (sample_unit_pending _ _) eq_refl).
Defined.

(** ** Argument binding *)

Lemma bind_args_error s pos kw e :
  bind_args s pos kw = inl e → ∃ text, e = TypeError text.
Proof.
  unfold bind_args. repeat case_bool_decide; intros [= <-]; eauto.
Qed.

Lemma filter_named_none (ps : list string) (kw : gmap string Val) :
  (∀ p, p ∈ ps → kw !! p = None) →
  filter (λ kv : string * Val, kv.1 ∈ ps) kw = ∅.
Proof.
  intros H. apply map_empty_filter_2. intros k v Hk Hin. cbn in Hin.
  rewrite (H k Hin) in Hk. discriminate.
Qed.

Lemma filter_others_all (ps : list string) (kw : gmap string Val) :
  (∀ p, p ∈ ps → kw !! p = None) →
  filter (λ kv : string * Val, kv.1 ∉ ps) kw = kw.
Proof.
  intros H. apply map_filter_id. intros k v Hk Hin. cbn in Hin.
  rewrite (H k Hin) in Hk. discriminate.
Qed.

Lemma zip_exact_app (ps : list string) (vals extra : list Val) :
  length vals = length ps → zip ps (vals ++ extra) = zip ps vals.
Proof.
  revert vals. induction ps as [|p ps IH]; intros [|v vs] Hlen;
    cbn in *; try discriminate; try reflexivity.
  f_equal. apply IH. lia.
Qed.

(** A function with [*args] and [**kwargs] and no defaults accepts every
    call that fills its named parameters by position and repeats none of
    them by keyword. *)
Lemma bind_args_star s a k (extra : list Val) (kw : gmap string Val) vals :
  star_args s = Some a → star_kwargs s = Some k → defaults s = ∅ →
  length vals = length (params s) → NoDup (params s) →
  (∀ p, p ∈ params s → kw !! p = None) →
  bind_args s (vals ++ extra) kw =
    inr (<[k := VDict kw]> (<[a := VTuple extra]> (list_to_map (zip (params s) vals)))).
Proof.
  intros Ha Hk Hd Hlen Hnd Hkw. unfold bind_args.
  rewrite (filter_named_none _ _ Hkw), (filter_others_all _ _ Hkw), Ha, Hk, Hd.
  rewrite bool_decide_eq_false_2 by (intros [_ ?]; discriminate).
  rewrite (bool_decide_eq_false_2 (dom _ ∩ dom _ ≠ ∅))
    by (rewrite dom_empty_L; intros Hne; apply Hne; apply set_eq; intros x;
        rewrite elem_of_intersection, elem_of_empty; tauto).
  rewrite (bool_decide_eq_false_2 (kw ≠ ∅ ∧ _)) by (intros [_ ?]; discriminate).
  rewrite !(right_id_L ∅ (∪)).
  rewrite zip_exact_app by exact Hlen.
  rewrite drop_app_length' by (symmetry; exact Hlen).
  rewrite bool_decide_eq_true_2; [reflexivity|].
  apply Forall_forall. intros p Hp.
  apply elem_of_dom. apply (list_elem_of_lookup_1 _) in Hp as [i Hi].
  destruct (lookup_lt_is_Some_2 vals i) as [v Hv].
  { rewrite Hlen. eapply lookup_lt_Some; eauto. }
  exists v. apply elem_of_list_to_map_1.
  - rewrite fst_zip by lia. exact Hnd.
  - apply list_elem_of_lookup_2 with i. apply lookup_zip_with_Some. eauto.
Qed.

Lemma bind_args_wrapper name pos kw :
  bind_args (wrapper_sig name) pos kw =
    inr (<["kwargs" := VDict kw]> (<["args" := VTuple pos]> ∅)).
Proof.
  apply (bind_args_star (wrapper_sig name) "args" "kwargs" pos kw []);
    try reflexivity.
  - apply NoDup_nil_2.
  - intros p Hp. cbn in Hp. by apply elem_of_nil in Hp.
Qed.

Lemma wrapper_locals pos kw :
  let L : gmap string Val := <["kwargs" := VDict kw]> (<["args" := VTuple pos]> ∅) in
  local L "args" = VTuple pos ∧ local L "kwargs" = VDict kw.
Proof. split; reflexivity. Qed.

(** ** Construction *)

Lemma AsyncResult_new_raises w a b c :
  instantiate AsyncResult AsyncResult___init__ [a; b; c] ∅ w =
    (Raise (TypeError "__init__() takes exactly 4 arguments (7 given)"),
     world_with w (fresh (dom (heap w))) {| cls := AsyncResult; attrs := ∅ |}
       [Instantiate AsyncResult [a; b; c] ∅]).
Proof. reflexivity. Qed.

Lemma AsyncResult_new_hooks_raises w a b c n bc ac :
  instantiate AsyncResult AsyncResult___init__ [a; b; c; n; bc; ac] ∅ w =
    (Raise (TypeError "__init__() takes exactly 4 arguments (7 given)"),
     world_with w (fresh (dom (heap w))) {| cls := AsyncResult; attrs := ∅ |}
       [Instantiate AsyncResult [a; b; c; n; bc; ac] ∅]).
Proof. reflexivity. Qed.

Lemma not_in_singleton_Instantiate (r : Val) c pos kw :
  PoolExecute r ∉ [Instantiate c pos kw].
Proof.
  intros H. apply list_elem_of_singleton in H. discriminate.
Qed.

(** C1, as the code has it.  Constructing an [AsyncResult] for a callable,
    a positional tuple and a keyword mapping never succeeds:
    [AsyncResult.__init__] passes six arguments after [self] to
    [RunnableWrapper.__init__], which takes three, and the call raises
    [TypeError].  So [runTask] and the wrapper of [asyncSwingTask] raise
    instead of returning a result, and nothing is handed to the pool or to
    the dispatch queue. *)
Theorem construction_raises w func args kwargs :
  (instantiate AsyncResult AsyncResult___init__ [func; VTuple args; VDict kwargs] ∅ w).1
    = Raise (TypeError "__init__() takes exactly 4 arguments (7 given)") ∧
  (∀ self, ∃ (text : string) (evs : list Effect),
     (TaskExecutor_runTask (self :: func :: args) kwargs w).1 = Raise (TypeError text) ∧
     trace (TaskExecutor_runTask (self :: func :: args) kwargs w).2 = (trace w ++ evs)%list ∧
     ∀ r, PoolExecute r ∉ evs) ∧
  (∃ evs : list Effect,
     (asyncSwingTask_wrapper func args kwargs w).1
       = Raise (TypeError "__init__() takes exactly 4 arguments (7 given)") ∧
     trace (asyncSwingTask_wrapper func args kwargs w).2 = (trace w ++ evs)%list ∧
     ∀ r, EdtInvokeLater r ∉ evs).
Proof.
  split; [reflexivity|]. split.
  - intros self. unfold TaskExecutor_runTask, def.
    destruct (bind_args runTask_sig (self :: func :: args) kwargs) as [e|L] eqn:Hb.
    + destruct (bind_args_error _ _ _ _ Hb) as [text ->].
      exists text, []. cbn. rewrite app_nil_r.
      repeat split. intros r Hr. by apply elem_of_nil in Hr.
    + unfold bind at 1. rewrite AsyncResult_new_raises.
      exists "__init__() takes exactly 4 arguments (7 given)".
      eexists. split; [reflexivity|]. split; [reflexivity|].
      intros r. apply not_in_singleton_Instantiate.
  - unfold asyncSwingTask_wrapper, def. rewrite bind_args_wrapper.
    unfold bind at 1. rewrite AsyncResult_new_raises.
    eexists. split; [reflexivity|]. split; [reflexivity|].
    intros r Hr. apply list_elem_of_singleton in Hr. discriminate.
Qed.

(** ** The task executor *)

Lemma getattr_instance w l ob name v :
  heap w !! l = Some ob → attrs ob !! name = Some v →
  getattr (VRef l) name w = (Ok v, w).
Proof. intros Hl Ha. unfold getattr. rewrite Hl, Ha. reflexivity. Qed.

Lemma getattr_missing w l ob name :
  heap w !! l = Some ob → attrs ob !! name = None →
  class_attr (cls ob) name = None →
  getattr (VRef l) name w =
    (Raise (AttributeError ("'" +:+ class_name (cls ob) +:+
              "' object has no attribute '" +:+ name +:+ "'")), w).
Proof. intros Hl Ha Hc. unfold getattr. rewrite Hl, Ha, Hc. reflexivity. Qed.

(** When the runnable carries a [beforeCallback] attribute, the hook point
    calls the pool-wide hook if set, then the runnable's own if set, each
    on the thread and the runnable. *)
Lemma beforeExecute_hooks code w el ex ul u thread bc rc :
  heap w !! el = Some ex → attrs ex !! "beforeCallback" = Some bc →
  heap w !! ul = Some u → attrs u !! "beforeCallback" = Some rc →
  (bc = VNone ∨ ∃ g x, bc = VFunc g ∧ code g [thread; VRef ul] ∅ = Ok x) →
  (rc = VNone ∨ ∃ g x, rc = VFunc g ∧ code g [thread; VRef ul] ∅ = Ok x) →
  TaskExecutor_beforeExecute code (VRef el) thread (VRef ul) w =
    (Ok VNone,
     {| heap := heap w;
        trace := (trace w ++ hook_call bc [thread; VRef ul])
                   ++ hook_call rc [thread; VRef ul];
        isEventDispatchThread := isEventDispatchThread w |}).
Proof.
  intros Hel Hbc Hul Hrc Hb Hr. destruct w as [h t edt]. cbn in *.
  unfold TaskExecutor_beforeExecute, bind, call, effect, ret, getattr, log.
  destruct Hb as [-> | (g & x & -> & Hg)], Hr as [-> | (g' & x' & -> & Hg')];
    cbn; rewrite ?Hel, ?Hul; cbn; rewrite ?Hbc, ?Hrc; cbn;
    rewrite ?Hg; cbn; rewrite ?Hul; cbn; rewrite ?Hrc; cbn; rewrite ?Hg';
    rewrite ?app_nil_r; reflexivity.
Qed.

(** C2, as the code has it.  A runnable on which nobody assigned
    [beforeCallback], which is every runnable [RunnableWrapper.__init__]
    sets up, makes the hook point raise [AttributeError], whatever the
    pool-wide hook is when it is not set. *)
Theorem beforeExecute_unhooked_unit code w el ex ul u thread :
  heap w !! el = Some ex → attrs ex !! "beforeCallback" = Some VNone →
  heap w !! ul = Some u → attrs u !! "beforeCallback" = None →
  class_attr (cls u) "beforeCallback" = None →
  TaskExecutor_beforeExecute code (VRef el) thread (VRef ul) w =
    (Raise (AttributeError ("'" +:+ class_name (cls u) +:+
              "' object has no attribute 'beforeCallback'")), w).
Proof.
  intros Hel Hbc Hul Hrc Hcls.
  unfold TaskExecutor_beforeExecute, bind, ret.
  rewrite (getattr_instance _ _ _ _ _ Hel Hbc). unfold truth. cbn [truthy]. cbv beta iota.
  rewrite (getattr_missing _ _ _ _ Hul Hrc Hcls). reflexivity.
Qed.

Lemma beforeExecute_unhooked_unit_witness :
  heap pool_world !! 0%nat =
    Some {| cls := TaskExecutor;
            attrs := <["afterCallback" := VNone]> (<["beforeCallback" := VNone]> ∅) |} ∧
  heap pool_world !! 2%nat =
    Some {| cls := RunnableWrapper;
            attrs := <["_kwargs" := VDict ∅]> (<["_args" := VTuple [VInt 3; VInt 4]]>
                       (<["_func" := VFunc 0]> ∅)) |} ∧
  TaskExecutor_beforeExecute sample_code (VRef 0) (VStr "worker-1") (VRef 2) pool_world =
    (Raise (AttributeError "'RunnableWrapper' object has no attribute 'beforeCallback'"),
     pool_world).
Proof.
  split; [reflexivity|]. split; [reflexivity|].
  exact (beforeExecute_unhooked_unit sample_code pool_world 0 _ 2 _ (VStr "worker-1")
           eq_refl eq_refl eq_refl eq_refl eq_refl).
Defined.

Lemma delete_hooks_after_insert (kw : gmap string Val) bc ac :
  delete "afterCallback" (delete "beforeCallback"
    (<["afterCallback" := ac]> (<["beforeCallback" := bc]> kw)))
  = delete "afterCallback" (delete "beforeCallback" kw).
Proof.
  rewrite (delete_insert_ne _ "beforeCallback" "afterCallback") by done.
  rewrite delete_insert_eq, delete_insert_eq. reflexivity.
Qed.

Lemma runNamedTask_instantiates w self func name args kwargs :
  (∀ p, p ∈ ["self"; "func"; "name"] → kwargs !! p = None) →
  trace (TaskExecutor_runNamedTask (self :: func :: name :: args) kwargs w).2 =
    (trace w ++
     [Instantiate AsyncResult
        [func; VTuple args;
         VDict (delete "afterCallback" (delete "beforeCallback" kwargs));
         name;
         default VNone (kwargs !! "beforeCallback");
         default VNone (kwargs !! "afterCallback")] ∅])%list.
Proof.
  intros Hkw. unfold TaskExecutor_runNamedTask, def.
  change (self :: func :: name :: args) with (([self; func; name] ++ args)%list).
  rewrite (bind_args_star runNamedTask_sig "args" "kwargs" args kwargs
             [self; func; name] eq_refl eq_refl eq_refl eq_refl);
    [| by apply (bool_decide_unpack _) | exact Hkw].
  cbn [runNamedTask_sig params zip zip_with list_to_map foldr uncurry fst snd].
  unfold local. rewrite lookup_insert_eq.
  rewrite !(lookup_insert_ne _ "kwargs") by done.
  rewrite lookup_insert_eq.
  rewrite !(lookup_insert_ne _ "args") by done.
  rewrite lookup_insert_eq, !(lookup_insert_ne _ "self") by done.
  rewrite lookup_insert_eq, !(lookup_insert_ne _ "func") by done.
  rewrite lookup_insert_eq.
  cbn [default as_dict dict_pop]. unfold bind at 1.
  rewrite AsyncResult_new_hooks_raises. cbn [snd trace world_with].
  rewrite lookup_delete_ne by done. reflexivity.
Qed.

(** C10.  For a call whose keywords repeat none of [self], [func] and
    [name]: the mapping [runNamedTask] stores for the callable is the
    caller's without the entries [beforeCallback] and [afterCallback], so
    it has neither name, and the two popped values go to the hook
    positions; the instantiation is all [runNamedTask] does, so the
    callable is not invoked with those names.  The [inner] closure of
    [namedTask] puts the decorator's own hooks at the hook positions
    whatever the caller supplied under those two names. *)
Theorem reserved_hook_keywords w self func name args kwargs bc ac :
  (∀ p, p ∈ ["self"; "func"; "name"] → kwargs !! p = None) →
  let stored := delete "afterCallback" (delete "beforeCallback" kwargs) in
  stored !! "beforeCallback" = None ∧
  stored !! "afterCallback" = None ∧
  (∀ k, k ≠ "beforeCallback" → k ≠ "afterCallback" → stored !! k = kwargs !! k) ∧
  trace (TaskExecutor_runNamedTask (self :: func :: name :: args) kwargs w).2 =
    (trace w ++
     [Instantiate AsyncResult
        [func; VTuple args; VDict stored; name;
         default VNone (kwargs !! "beforeCallback");
         default VNone (kwargs !! "afterCallback")] ∅])%list ∧
  trace (TaskExecutor_namedTask_inner self name bc ac func args kwargs w).2 =
    (trace w ++
     [Instantiate AsyncResult [func; VTuple args; VDict stored; name; bc; ac] ∅])%list.
Proof.
  intros Hkw stored. subst stored. split; [|split; [|split; [|split]]].
  - rewrite lookup_delete_ne by done. apply lookup_delete_eq.
  - apply lookup_delete_eq.
  - intros k H1 H2. rewrite !lookup_delete_ne by done. reflexivity.
  - exact (runNamedTask_instantiates w self func name args kwargs Hkw).
  - unfold TaskExecutor_namedTask_inner, def. rewrite bind_args_wrapper.
    destruct (wrapper_locals args kwargs) as [-> ->].
    cbn [as_dict unpack_args]. unfold bind at 1, ret at 1.
    rewrite runNamedTask_instantiates.
    + rewrite delete_hooks_after_insert.
      rewrite lookup_insert_ne by done. rewrite lookup_insert_eq.
      rewrite lookup_insert_eq. reflexivity.
    + intros p Hp. rewrite !lookup_insert_ne; [exact (Hkw p Hp) | |];
        intros <-; exact (bool_decide_pack _ Hp).
Qed.

Lemma reserved_hook_keywords_witness :
  let kwargs : gmap string Val :=
    <["beforeCallback" := VInt 1]> (<["x" := VInt 2]> ∅) in
  let stored := delete "afterCallback" (delete "beforeCallback" kwargs) in
  stored !! "beforeCallback" = None ∧
  stored !! "afterCallback" = None ∧
  (∀ k, k ≠ "beforeCallback" → k ≠ "afterCallback" → stored !! k = kwargs !! k) ∧
  trace (TaskExecutor_runNamedTask
           [VRef 0; VFunc 0; VStr "sum"; VInt 3; VInt 4] kwargs (empty_world false)).2 =
    [Instantiate AsyncResult
       [VFunc 0; VTuple [VInt 3; VInt 4]; VDict stored; VStr "sum";
        VInt 1; VNone] ∅] ∧
  trace (TaskExecutor_namedTask_inner (VRef 0) (VStr "sum") (VFunc 3) VNone (VFunc 0)
           [VInt 3; VInt 4] kwargs (empty_world false)).2 =
    [Instantiate AsyncResult
       [VFunc 0; VTuple [VInt 3; VInt 4]; VDict stored; VStr "sum"; VFunc 3; VNone] ∅].
Proof.
  refine (reserved_hook_keywords (empty_world false) (VRef 0) (VFunc 0) (VStr "sum")
            [VInt 3; VInt 4] (<["beforeCallback" := VInt 1]> (<["x" := VInt 2]> ∅))
            (VFunc 3) VNone _).
  intros p Hp. repeat (apply elem_of_cons in Hp as [-> | Hp]; [reflexivity|]).
  by apply elem_of_nil in Hp.
Defined.

(** ** The dispatch functions *)

Lemma RunnableWrapper_init_binds (s f a k : Val) :
  bind_args RunnableWrapper___init___sig [s; f; a; k] ∅ =
    inr (<["self" := s]> (<["func" := f]> (<["args" := a]> (<["kwargs" := k]> ∅)))).
Proof. reflexivity. Qed.

(** [RunnableWrapper(func, args, kwargs)] always succeeds and stores its
    three arguments; it assigns no hook attribute. *)
Lemma RunnableWrapper_new w func args kwargs :
  instantiate RunnableWrapper RunnableWrapper___init__ [func; args; kwargs] ∅ w =
    (Ok (VRef (fresh (dom (heap w)))),
     world_with w (fresh (dom (heap w)))
       {| cls := RunnableWrapper;
          attrs := <["_kwargs" := kwargs]> (<["_args" := args]>
                     (<["_func" := func]> ∅)) |}
       [Instantiate RunnableWrapper [func; args; kwargs] ∅]).
Proof.
  destruct w as [h t edt].
  unfold instantiate, RunnableWrapper___init__, def, new_object.
  unfold bind at 1. unfold effect at 1. unfold bind at 1.
  cbn [heap log trace isEventDispatchThread set_heap].
  unfold bind at 1. rewrite RunnableWrapper_init_binds.
  change (local _ "self") with (VRef (fresh (dom h))).
  change (local _ "func") with func.
  change (local _ "args") with args.
  change (local _ "kwargs") with kwargs.
  unfold bind, setattr, ret, set_heap, world_with, with_attr.
  do 3 (cbn [heap trace isEventDispatchThread cls attrs]; rewrite !lookup_insert_eq).
  cbn [heap trace isEventDispatchThread cls attrs].
  rewrite !insert_insert_eq. reflexivity.
Qed.

(** On the dispatch thread the wrapper of [invokeLater] discards what the
    function returns. *)
Lemma invokeLater_direct_return code w n pos kw v :
  isEventDispatchThread w = true → code n pos kw = Ok v →
  invokeLater_wrapper code (VFunc n) pos kw w = (Ok VNone, log (Called n pos kw) w).
Proof.
  intros Hedt Hc. unfold invokeLater_wrapper, def. rewrite bind_args_wrapper.
  destruct (wrapper_locals pos kw) as [-> ->].
  unfold bind, onEventDispatchThread, unpack_args, call, effect, ret.
  rewrite Hedt. cbn [as_dict]. rewrite Hc. reflexivity.
Qed.

(** Off the dispatch thread the wrapper queues a runnable and returns
    [None] without the function being called. *)
Lemma invokeLater_queued code w func pos kw :
  isEventDispatchThread w = false →
  invokeLater_wrapper code func pos kw w =
    (Ok VNone,
     world_with w (fresh (dom (heap w)))
       {| cls := RunnableWrapper;
          attrs := <["_kwargs" := VDict kw]> (<["_args" := VTuple pos]>
                     (<["_func" := func]> ∅)) |}
       [Instantiate RunnableWrapper [func; VTuple pos; VDict kw] ∅;
        EdtInvokeLater (VRef (fresh (dom (heap w))))]).
Proof.
  intros Hedt. unfold invokeLater_wrapper, def. rewrite bind_args_wrapper.
  destruct (wrapper_locals pos kw) as [-> ->].
  unfold bind at 1. unfold onEventDispatchThread. rewrite Hedt.
  unfold bind at 1. rewrite RunnableWrapper_new.
  unfold SwingUtilities_invokeLater, bind, effect, ret, log, world_with.
  cbn [fst snd trace heap isEventDispatchThread]. rewrite <- app_assoc.
  reflexivity.
Qed.

(** C5, as the code has it.  On the dispatch thread the wrapper of
    [invokeLater] calls the function directly and outside any [try]: a
    failure the function raises is raised to the caller of the wrapper. *)
Theorem invokeLater_direct_failure code w n pos kw e :
  isEventDispatchThread w = true → code n pos kw = Raise e →
  invokeLater_wrapper code (VFunc n) pos kw w = (Raise e, log (Called n pos kw) w).
Proof.
  intros Hedt Hc. unfold invokeLater_wrapper, def. rewrite bind_args_wrapper.
  destruct (wrapper_locals pos kw) as [-> ->].
  unfold bind, onEventDispatchThread, unpack_args, call, effect, ret.
  rewrite Hedt. cbn [as_dict]. rewrite Hc. reflexivity.
Qed.

Lemma invokeLater_direct_failure_witness :
  invokeLater_wrapper sample_code (VFunc 1) [] ∅ (empty_world true) =
    (Raise (PyError "ValueError" "boom"),
     {| heap := ∅; trace := [Called 1 [] ∅]; isEventDispatchThread := true |}).
Proof.
  exact (invokeLater_direct_failure sample_code (empty_world true) 1 [] ∅
           (PyError "ValueError" "boom") eq_refl eq_refl).
Defined.

(** A queued [RunnableWrapper], once the dispatch thread runs it, calls
    the function and drops what it returns; a failure goes to the thread
    that runs it. *)
Lemma RunnableWrapper_run_result code w l ob f pos kw :
  heap w !! l = Some ob →
  attrs ob !! "_func" = Some (VFunc f) → attrs ob !! "_args" = Some (VTuple pos) →
  attrs ob !! "_kwargs" = Some (VDict kw) →
  RunnableWrapper_run code (VRef l) w =
    (match code f pos kw with Ok _ => Ok VNone | r => r end, log (Called f pos kw) w).
Proof.
  intros Hl Hf Ha Hk.
  unfold RunnableWrapper_run, call_func, unpack_args, unpack_kwargs, call, effect,
    bind, ret.
  rewrite (getattr_instance _ _ _ _ _ Hl Hf), (getattr_instance _ _ _ _ _ Hl Ha),
    (getattr_instance _ _ _ _ _ Hl Hk).
  cbv beta iota. destruct (code f pos kw); reflexivity.
Qed.

Lemma execInEDT_binds (func : Val) pos kw :
  kw !! "func" = None →
  bind_args execInEDT_sig (func :: pos) kw =
    inr (<["kwargs" := VDict kw]> (<["args" := VTuple pos]> (<["func" := func]> ∅))).
Proof.
  intros Hkw.
  apply (bind_args_star execInEDT_sig "args" "kwargs" pos kw [func]);
    try reflexivity.
  - by apply (bool_decide_unpack _).
  - intros p Hp. apply list_elem_of_singleton in Hp as ->. exact Hkw.
Qed.

(** On the dispatch thread [execInEDT] is the plain call of the function:
    its result or failure reaches the caller untouched and nothing is
    queued. *)
Lemma execInEDT_call_through code w n pos kw :
  isEventDispatchThread w = true → kw !! "func" = None →
  execInEDT code (VFunc n :: pos) kw w = (code n pos kw, log (Called n pos kw) w).
Proof.
  intros Hedt Hkw. unfold execInEDT, def. rewrite (execInEDT_binds _ _ _ Hkw).
  change (local _ "func") with (VFunc n).
  change (local _ "args") with (VTuple pos).
  change (local _ "kwargs") with (VDict kw).
  unfold onEventDispatchThread, unpack_args, call, effect, bind, ret.
  rewrite Hedt. cbn [as_dict]. destruct (code n pos kw); reflexivity.
Qed.

(** Off the dispatch thread [execInEDT] fails at the construction of the
    holder, before anything is queued. *)
Lemma execInEDT_off_thread_raises code w func pos kw :
  isEventDispatchThread w = false → kw !! "func" = None →
  (execInEDT code (func :: pos) kw w).1 =
    Raise (TypeError "__init__() takes exactly 4 arguments (7 given)").
Proof.
  intros Hedt Hkw. unfold execInEDT, def. rewrite (execInEDT_binds _ _ _ Hkw).
  unfold bind at 1. unfold onEventDispatchThread. rewrite Hedt.
  unfold bind at 1. rewrite AsyncResult_new_raises. reflexivity.
Qed.

(** * Further properties of the module *)

(** ** The deferred result over its whole life *)

Lemma exec_op_world code w l ob f pos kw p op :
  heap w !! l = Some (in_phase ob p) → pending_unit ob f pos kw →
  (exec_op code (VRef l) op w).2 =
    world_with w l (in_phase ob (step_phase (code f pos kw) f pos kw op p).1.2)
      (step_phase (code f pos kw) f pos kw op p).2.
Proof.
  intros Hl Hu. rewrite (exec_op_in_phase _ _ _ _ _ _ _ _ _ Hl Hu).
  destruct (step_phase (code f pos kw) f pos kw op p) as [[r p'] evs].
  reflexivity.
Qed.

Lemma step_phase_pending_effects body f pos kw op :
  settles body = true →
  let s := step_phase body f pos kw op Pending in
  (s.1.2 = Pending ∧ s.2 = []) ∨
  (s.1.2 ≠ Pending ∧
   (s.2 = [] ∨ s.2 = [Called f pos kw] ∨
    ∃ e, body = Raise e ∧ s.2 = [Called f pos kw; PrintExc e])).
Proof.
  intros Hb. destruct op; cbn.
  - destruct body as [v|e|]; cbn in Hb; [| rewrite Hb | discriminate];
      right; split; try discriminate; eauto.
  - right. split; [discriminate | auto].
  - destruct (get_timeout timeout unit) as [?|[?|]]; left; auto.
  - left; auto.
  - left; auto.
Qed.

Lemma isBaseException_not_Throwable e :
  isBaseException e = true → isThrowable e = false.
Proof. destruct e; cbn; congruence. Qed.

(** X1.  When the callable of a pending unit returns [v], [run()]
    returns [None] after exactly that one call and sets the event; the
    unit is then done and every [get()] that gets past the conversion of
    its timeout returns [v] at once, leaving the world as it is, so that
    any number of such [get()] calls return [v]. *)
Theorem value_round_trip code w l ob f pos kw v t u q :
  heap w !! l = Some ob → pending_unit ob f pos kw → code f pos kw = Ok v →
  get_timeout t u = inr q →
  ∃ w1,
    AsyncResult_run code (VRef l) w = (Ok VNone, w1) ∧
    trace w1 = (trace w ++ [Called f pos kw])%list ∧
    signal_at w1 l = Some (VEvent true) ∧
    AsyncResult_isDone (VRef l) w1 = (Ok (VBool true), w1) ∧
    AsyncResult_get (VRef l) t u w1 = (Ok v, w1).
Proof.
  intros Hl Hu Hc Ht.
  set (w1 := world_with w l (in_phase ob (Value v)) [Called f pos kw]).
  assert (H1 : heap w1 !! l = Some (in_phase ob (Value v)))
    by apply world_with_lookup.
  assert (Hne : Value v ≠ Pending) by discriminate.
  exists w1. split; [|split; [|split; [|split]]].
  - exact (step_run_returning code w l ob f pos kw v Hl Hu Hc).
  - reflexivity.
  - exact (signal_at_phase _ _ _ _ _ _ (Value v) H1 Hu).
  - exact (exec_op_settled_result code w1 l ob f pos kw (Value v) OpIsDone H1 Hu Hne).
  - pose proof (exec_op_settled_result code w1 l ob f pos kw (Value v) (OpGet t u)
                  H1 Hu Hne) as H.
    cbn [exec_op step_phase] in H. rewrite Ht in H. exact H.
Qed.

Lemma value_round_trip_witness :
  ∃ w1,
    AsyncResult_run sample_code (VRef 0) (sample_world 0 [VInt 3; VInt 4]) = (Ok VNone, w1) ∧
    trace w1 = ([] ++ [Called 0 [VInt 3; VInt 4] ∅])%list ∧
    signal_at w1 0 = Some (VEvent true) ∧
    AsyncResult_isDone (VRef 0) w1 = (Ok (VBool true), w1) ∧
    AsyncResult_get (VRef 0) (Some (NInt 2)) (Some SECONDS) w1 = (Ok (VInt 7), w1).
Proof.
  exact (value_round_trip sample_code (sample_world 0 [VInt 3; VInt 4]) 0
           (sample_unit 0 [VInt 3; VInt 4]) 0 [VInt 3; VInt 4] ∅ (VInt 7)
           (Some (NInt 2)) (Some SECONDS) _
           (sample_world_lookup _ _) (sample_unit_pending _ _) eq_refl eq_refl).
Defined.

(** X2.  [cancel()] does not set the event and a cancelled unit's
    [run()] returns before setting it: after [cancel()] on a pending unit,
    whatever calls follow, a [get()] without timeout never returns. *)
Theorem get_after_cancel_never_returns code w l ob f pos kw m ops u :
  heap w !! l = Some ob → pending_unit ob f pos kw →
  (AsyncResult_get (VRef l) None u
     (exec_ops code (VRef l) ops (AsyncResult_cancel (VRef l) m w).2)).1 = Hang.
Proof.
  intros Hl Hu. rewrite (step_cancel_pending w l ob f pos kw m Hl Hu). cbn [snd].
  set (w1 := world_with w l (in_phase ob Cancelled) []).
  assert (H1 : heap w1 !! l = Some (in_phase ob Cancelled))
    by apply world_with_lookup.
  assert (Hne : Cancelled ≠ Pending) by discriminate.
  rewrite (exec_ops_settled code w1 l ob f pos kw Cancelled ops H1 Hu Hne).
  pose proof (exec_op_settled_result code w1 l ob f pos kw Cancelled (OpGet None u)
                H1 Hu Hne) as H.
  cbn [exec_op] in H. rewrite H. reflexivity.
Qed.

Lemma get_after_cancel_never_returns_witness :
  (AsyncResult_get (VRef 0) None None
     (exec_ops sample_code (VRef 0) [OpRun; OpIsDone; OpRun]
        (AsyncResult_cancel (VRef 0) (VBool true) (sample_world 0 [VInt 3; VInt 4])).2)).1
  = Hang.
Proof.
  exact (get_after_cancel_never_returns sample_code (sample_world 0 [VInt 3; VInt 4]) 0
           (sample_unit 0 [VInt 3; VInt 4]) 0 [VInt 3; VInt 4] ∅ (VBool true)
           [OpRun; OpIsDone; OpRun] None
           (sample_world_lookup _ _) (sample_unit_pending _ _)).
Defined.

Lemma effects_from_phase code l ob f pos kw ops : ∀ w p,
  heap w !! l = Some (in_phase ob p) → pending_unit ob f pos kw →
  settles (code f pos kw) = true →
  ∃ evs : list Effect,
    trace (exec_ops code (VRef l) ops w) = (trace w ++ evs)%list ∧
    (evs = [] ∨
     (p = Pending ∧
      (evs = [Called f pos kw] ∨
       ∃ e, code f pos kw = Raise e ∧ evs = [Called f pos kw; PrintExc e]))).
Proof.
  induction ops as [|op ops IH]; intros w p Hl Hu Hc; cbn [exec_ops].
  - exists []. rewrite app_nil_r. auto.
  - assert (Hcases : p = Pending ∨ p ≠ Pending)
      by (destruct p; [left; reflexivity | right; discriminate ..]).
    destruct Hcases as [-> | Hne].
    + pose proof (exec_op_world code w l ob f pos kw Pending op Hl Hu) as Hw.
      destruct (step_phase_pending_effects (code f pos kw) f pos kw op Hc)
        as [[Hp Hev] | [Hp Hev]]; cbv zeta in Hp, Hev.
      * rewrite Hp, Hev in Hw. rewrite (world_with_same _ _ _ Hl) in Hw.
        rewrite Hw. exact (IH w Pending Hl Hu Hc).
      * rewrite Hw.
        rewrite (exec_ops_settled code _ l ob f pos kw _ ops
                   (world_with_lookup _ _ _ _) Hu Hp).
        eexists. split; [reflexivity|].
        destruct Hev as [-> | Hev]; [left; reflexivity | right; auto].
    + rewrite (exec_op_settled code w l ob f pos kw p op Hl Hu Hne).
      rewrite (exec_ops_settled code w l ob f pos kw p ops Hl Hu Hne).
      exists []. rewrite app_nil_r. auto.
Qed.

(** X3.  Over any sequence of calls on a unit that starts pending and
    whose callable returns, or raises a failure that [except
    BaseException] catches, the callable is invoked at most once: the
    effects of the whole sequence are nothing, the one call, or the one
    call followed by the printing of the exception it raised. *)
Theorem callable_invoked_at_most_once code w l ob f pos kw ops :
  heap w !! l = Some ob → pending_unit ob f pos kw →
  settles (code f pos kw) = true →
  ∃ evs : list Effect,
    trace (exec_ops code (VRef l) ops w) = (trace w ++ evs)%list ∧
    (evs = [] ∨ evs = [Called f pos kw] ∨
     ∃ e, code f pos kw = Raise e ∧ evs = [Called f pos kw; PrintExc e]).
Proof.
  intros Hl Hu Hc.
  destruct (effects_from_phase code l ob f pos kw ops w Pending Hl Hu Hc)
    as (evs & Ht & Hev).
  exists evs. split; [exact Ht|].
  destruct Hev as [-> | [_ [-> | Hev]]]; auto.
Qed.

Lemma callable_invoked_at_most_once_witness :
  ∃ evs : list Effect,
    trace (exec_ops sample_code (VRef 0)
             [OpRun; OpGet None None; OpRun; OpCancel VNone; OpRun]
             (sample_world 1 [])) = ([] ++ evs)%list ∧
    (evs = [] ∨ evs = [Called 1 [] ∅] ∨
     ∃ e, sample_code 1%nat [] ∅ = Raise e ∧ evs = [Called 1 [] ∅; PrintExc e]).
Proof.
  exact (callable_invoked_at_most_once sample_code (sample_world 1 []) 0
           (sample_unit 1 []) 1 [] ∅
           [OpRun; OpGet None None; OpRun; OpCancel VNone; OpRun]
           (sample_world_lookup _ _) (sample_unit_pending _ _) eq_refl).
Defined.

(** X4.  Whatever calls a unit that starts pending has seen, [run()]
    raises nothing of its own: it returns [None], or does not return
    because the callable does not terminate, or raises the failure of the
    callable that [except BaseException] did not catch. *)
Theorem run_raises_only_uncaught code w l ob f pos kw ops :
  heap w !! l = Some ob → pending_unit ob f pos kw →
  let r := (AsyncResult_run code (VRef l) (exec_ops code (VRef l) ops w)).1 in
  r = Ok VNone ∨
  (r = Hang ∧ code f pos kw = Hang) ∨
  (∃ e, r = Raise e ∧ code f pos kw = Raise e ∧ isBaseException e = false).
Proof.
  intros Hl Hu. cbv zeta.
  pose proof (exec_ops_in_phase code l ob f pos kw ops w Pending Hl Hu) as Hw.
  pose proof (exec_op_in_phase code _ l ob f pos kw _ OpRun Hw Hu) as Hrun.
  cbn [exec_op] in Hrun. rewrite Hrun.
  destruct (phase_after (code f pos kw) f pos kw ops Pending); cbn; auto.
  destruct (code f pos kw) as [v|e|]; cbn; auto.
  destruct (isBaseException e) eqn:Hb; cbn; [left; reflexivity|].
  right; right. exists e. auto.
Qed.

Lemma run_raises_only_uncaught_witness :
  let r := (AsyncResult_run sample_code (VRef 0)
              (exec_ops sample_code (VRef 0) [OpGet (Some (NInt 1)) None; OpRun]
                 (sample_world 6 []))).1 in
  r = Ok VNone ∨
  (r = Hang ∧ sample_code 6%nat [] ∅ = Hang) ∨
  (∃ e, r = Raise e ∧ sample_code 6%nat [] ∅ = Raise e ∧ isBaseException e = false).
Proof.
  exact (run_raises_only_uncaught sample_code (sample_world 6 []) 0 (sample_unit 6 [])
           6 [] ∅ [OpGet (Some (NInt 1)) None; OpRun]
           (sample_world_lookup _ _) (sample_unit_pending _ _)).
Defined.

(** X5.  Between calls, that is, after any sequence of calls that have
    come back, on a unit that starts pending: the event is set exactly
    when a return value or an exception is recorded, and the two are
    never recorded together.  (Inside a [run()] the outcome is recorded
    before the event is set; the statement is not about those states.) *)
Theorem signal_set_iff_done code w l ob f pos kw ops :
  heap w !! l = Some ob → pending_unit ob f pos kw →
  let w' := exec_ops code (VRef l) ops w in
  (signal_at w' l = Some (VEvent true) ↔
     is_Some (retval_at w' l) ∨ is_Some (exception_at w' l)) ∧
  (signal_at w' l = Some (VEvent true) ∨ signal_at w' l = Some (VEvent false)) ∧
  ¬ (is_Some (retval_at w' l) ∧ is_Some (exception_at w' l)).
Proof.
  intros Hl Hu. cbv zeta.
  pose proof (exec_ops_in_phase code l ob f pos kw ops w Pending Hl Hu) as Hw.
  rewrite (signal_at_phase _ _ _ _ _ _ _ Hw Hu), (retval_at_phase _ _ _ _ _ _ _ Hw Hu),
    (exception_at_phase _ _ _ _ _ _ _ Hw Hu).
  destruct (phase_after (code f pos kw) f pos kw ops Pending);
    rewrite !is_Some_alt; (split; [|split]);
    first [ tauto | split; intros H; first [discriminate H | tauto | reflexivity]
          | left; reflexivity | right; reflexivity ].
Qed.

Lemma signal_set_iff_done_witness :
  let w' := exec_ops sample_code (VRef 0) [OpIsDone; OpRun; OpCancel VNone]
              (sample_world 0 [VInt 3; VInt 4]) in
  (signal_at w' 0 = Some (VEvent true) ↔
     is_Some (retval_at w' 0) ∨ is_Some (exception_at w' 0)) ∧
  (signal_at w' 0 = Some (VEvent true) ∨ signal_at w' 0 = Some (VEvent false)) ∧
  ¬ (is_Some (retval_at w' 0) ∧ is_Some (exception_at w' 0)).
Proof.
  exact (signal_set_iff_done sample_code (sample_world 0 [VInt 3; VInt 4]) 0
           (sample_unit 0 [VInt 3; VInt 4]) 0 [VInt 3; VInt 4] ∅
           [OpIsDone; OpRun; OpCancel VNone]
           (sample_world_lookup _ _) (sample_unit_pending _ _)).
Defined.

Lemma getattr_world o name w : (getattr o name w).2 = w.
Proof.
  unfold getattr. destruct o; try reflexivity.
  destruct (heap w !! l) as [ob|]; [|reflexivity].
  destruct (attrs ob !! name); [reflexivity|].
  destruct (class_attr (cls ob) name); reflexivity.
Qed.

Lemma hasattr_world o name w : (hasattr o name w).2 = w.
Proof.
  unfold hasattr. pose proof (getattr_world o name w) as H.
  destruct (getattr o name w) as [[v|e|] w']; cbn in *; exact H.
Qed.

(** X6.  The three observers change nothing: on any object whatever,
    and whatever they return or raise, [get()], [isDone()] and
    [isCancelled()] leave the heap and the trace as they found them. *)
Theorem observers_change_nothing self w t u :
  (AsyncResult_get self t u w).2 = w ∧
  (AsyncResult_isDone self w).2 = w ∧
  (AsyncResult_isCancelled self w).2 = w.
Proof.
  split; [|split].
  - unfold AsyncResult_get.
    destruct (get_timeout t u) as [err|timeout]; [reflexivity|].
    unfold Event_wait, bind, ret, raise, hang.
    pose proof (getattr_world self "_event" w) as He.
    destruct (getattr self "_event" w) as [[ev|e|] w1]; cbn in He; subst w1;
      try reflexivity.
    assert (Hrest :
      ((he <- hasattr self "_exception" ;;
        if he then
          e <- getattr self "_exception" ;;
          match e with
          | VExn x =>
              if isThrowable x then raise (ExecutionException_of_cause x)
              else
                match unicode x with
                | inr text => raise (ExecutionException_of_message text None)
                | inl err => raise err
                end
          | _ =>
              match unicode_val e with
              | inr text => raise (ExecutionException_of_message text None)
              | inl err => raise err
              end
          end
        else
          hr <- hasattr self "_retval" ;;
          if negb hr then raise CancellationException
          else getattr self "_retval")%py w).2 = w).
    { unfold bind, raise.
      pose proof (hasattr_world self "_exception" w) as Hx.
      destruct (hasattr self "_exception" w) as [[[|]|e|] w1]; cbn in Hx; subst w1;
        try reflexivity.
      - pose proof (getattr_world self "_exception" w) as Hg.
        destruct (getattr self "_exception" w) as [[v|e|] w1]; cbn in Hg; subst w1;
          try reflexivity.
        destruct v;
          try (match goal with
               | |- context [unicode_val ?x] => destruct (unicode_val x)
               end; reflexivity).
        destruct (isThrowable e); [reflexivity|].
        destruct (unicode e); reflexivity.
      - pose proof (hasattr_world self "_retval" w) as Hr.
        destruct (hasattr self "_retval" w) as [[[|]|e|] w1]; cbn in Hr; subst w1;
          try reflexivity.
        apply getattr_world. }
    unfold bind, raise in Hrest.
    destruct ev; try reflexivity.
    destruct flag; [exact Hrest|].
    destruct timeout; [exact Hrest | reflexivity].
  - unfold AsyncResult_isDone, bind, ret.
    pose proof (hasattr_world self "_retval" w) as Hr.
    destruct (hasattr self "_retval" w) as [[[|]|e|] w1]; cbn in Hr; subst w1;
      try reflexivity.
    pose proof (hasattr_world self "_exception" w) as Hx.
    destruct (hasattr self "_exception" w) as [[b|e|] w1]; cbn in Hx; subst w1;
      reflexivity.
  - unfold AsyncResult_isCancelled, bind, ret.
    pose proof (getattr_world self "_func" w) as Hf.
    destruct (getattr self "_func" w) as [[v|e|] w1]; cbn in Hf; subst w1;
      reflexivity.
Qed.

Lemma func_released_after code w l ob f pos kw p ops :
  heap w !! l = Some (in_phase ob p) → pending_unit ob f pos kw → p ≠ Pending →
  getattr (VRef l) "_func" (exec_ops code (VRef l) ops w) =
    (Ok VNone, exec_ops code (VRef l) ops w).
Proof.
  intros Hl Hu Hp.
  rewrite (exec_ops_settled code w l ob f pos kw p ops Hl Hu Hp).
  apply getattr_instance with (in_phase ob p); [exact Hl|].
  rewrite (in_phase_func _ _ _ _ p Hu). destruct p; congruence.
Qed.

(** X7.  Only the callable is released.  After any calls on a unit that
    starts pending, the argument tuple and the keyword mapping are still
    the ones stored at the start.  A [run()] that returns and a [cancel()]
    that returns true leave [_func] set to [None], and it is [None] after
    any further calls.  [run()] does return when the callable returns or
    raises a failure that [except BaseException] catches, and [cancel()]
    returns true, or returns false and changes nothing. *)
Theorem only_callable_released code w l ob f pos kw ops ops' :
  heap w !! l = Some ob → pending_unit ob f pos kw →
  let w' := exec_ops code (VRef l) ops w in
  getattr (VRef l) "_args" w' = (Ok (VTuple pos), w') ∧
  getattr (VRef l) "_kwargs" w' = (Ok (VDict kw), w') ∧
  (∀ r w1, AsyncResult_run code (VRef l) w' = (Ok r, w1) →
     getattr (VRef l) "_func" (exec_ops code (VRef l) ops' w1)
       = (Ok VNone, exec_ops code (VRef l) ops' w1)) ∧
  (∀ m w1, AsyncResult_cancel (VRef l) m w' = (Ok (VBool true), w1) →
     getattr (VRef l) "_func" (exec_ops code (VRef l) ops' w1)
       = (Ok VNone, exec_ops code (VRef l) ops' w1)) ∧
  (settles (code f pos kw) = true →
     ∃ w1, AsyncResult_run code (VRef l) w' = (Ok VNone, w1)) ∧
  (∀ m, (∃ w1, AsyncResult_cancel (VRef l) m w' = (Ok (VBool true), w1)) ∨
        AsyncResult_cancel (VRef l) m w' = (Ok (VBool false), w')).
Proof.
  intros Hl Hu. cbv zeta.
  pose proof (exec_ops_in_phase code l ob f pos kw ops w Pending Hl Hu) as Hw.
  set (w' := exec_ops code (VRef l) ops w) in *.
  set (p := phase_after (code f pos kw) f pos kw ops Pending) in *.
  pose proof Hu as [Hf Ha Hk He Hr Hx].
  split; [|split; [|split; [|split; [|split]]]].
  - apply getattr_instance with (in_phase ob p); [exact Hw|].
    destruct p; cbn; rewrite ?lookup_insert_ne by done; exact Ha.
  - apply getattr_instance with (in_phase ob p); [exact Hw|].
    destruct p; cbn; rewrite ?lookup_insert_ne by done; exact Hk.
  - intros r w1 Hrun.
    pose proof (exec_op_in_phase code w' l ob f pos kw p OpRun Hw Hu) as Hstep.
    cbn [exec_op] in Hstep. rewrite Hrun in Hstep.
    destruct (step_phase (code f pos kw) f pos kw OpRun p) as [[r' p'] evs] eqn:Hs.
    injection Hstep as <- ->.
    apply (func_released_after code _ l ob f pos kw p' ops'
             (world_with_lookup _ _ _ _) Hu).
    intros ->. destruct p; cbn in Hs; try discriminate Hs.
    destruct (code f pos kw) as [v|e|]; try discriminate Hs.
    destruct (isBaseException e); discriminate Hs.
  - intros m w1 Hcan.
    pose proof (exec_op_in_phase code w' l ob f pos kw p (OpCancel m) Hw Hu) as Hstep.
    cbn [exec_op] in Hstep. rewrite Hcan in Hstep.
    destruct (step_phase (code f pos kw) f pos kw (OpCancel m) p) as [[r' p'] evs] eqn:Hs.
    injection Hstep as <- ->.
    apply (func_released_after code _ l ob f pos kw p' ops'
             (world_with_lookup _ _ _ _) Hu).
    intros ->. destruct p; cbn in Hs; discriminate Hs.
  - intros Hs.
    pose proof (exec_op_in_phase code w' l ob f pos kw p OpRun Hw Hu) as Hstep.
    cbn [exec_op] in Hstep. rewrite Hstep.
    destruct p; cbn; eauto.
    destruct (code f pos kw) as [v|e|]; cbn in Hs |- *;
      [eauto | rewrite Hs; cbn; eauto | discriminate Hs].
  - intros m.
    pose proof (exec_op_in_phase code w' l ob f pos kw p (OpCancel m) Hw Hu) as Hstep.
    cbn [exec_op] in Hstep. rewrite Hstep.
    destruct p; cbn; eauto.
    + right. f_equal. apply world_with_same. exact Hw.
    + right. f_equal. apply world_with_same. exact Hw.
Qed.

Lemma only_callable_released_witness :
  let w' := exec_ops sample_code (VRef 0) [OpGet (Some (NInt 1)) None]
              (sample_world 0 [VInt 3; VInt 4]) in
  getattr (VRef 0) "_args" w' = (Ok (VTuple [VInt 3; VInt 4]), w') ∧
  getattr (VRef 0) "_kwargs" w' = (Ok (VDict ∅), w') ∧
  (∀ r w1, AsyncResult_run sample_code (VRef 0) w' = (Ok r, w1) →
     getattr (VRef 0) "_func" (exec_ops sample_code (VRef 0) [OpRun; OpIsDone] w1)
       = (Ok VNone, exec_ops sample_code (VRef 0) [OpRun; OpIsDone] w1)) ∧
  (∀ m w1, AsyncResult_cancel (VRef 0) m w' = (Ok (VBool true), w1) →
     getattr (VRef 0) "_func" (exec_ops sample_code (VRef 0) [OpRun; OpIsDone] w1)
       = (Ok VNone, exec_ops sample_code (VRef 0) [OpRun; OpIsDone] w1)) ∧
  (settles (sample_code 0%nat [VInt 3; VInt 4] ∅) = true →
     ∃ w1, AsyncResult_run sample_code (VRef 0) w' = (Ok VNone, w1)) ∧
  (∀ m, (∃ w1, AsyncResult_cancel (VRef 0) m w' = (Ok (VBool true), w1)) ∨
        AsyncResult_cancel (VRef 0) m w' = (Ok (VBool false), w')).
Proof.
  exact (only_callable_released sample_code (sample_world 0 [VInt 3; VInt 4]) 0
           (sample_unit 0 [VInt 3; VInt 4]) 0 [VInt 3; VInt 4] ∅
           [OpGet (Some (NInt 1)) None] [OpRun; OpIsDone]
           (sample_world_lookup _ _) (sample_unit_pending _ _)).
Defined.

(** X8.  [cancel()] on a unit that is already cancelled returns true
    again, every time, and changes nothing. *)
Theorem cancel_again_returns_true code w l ob f pos kw m m' ops :
  heap w !! l = Some ob → pending_unit ob f pos kw →
  let w1 := exec_ops code (VRef l) ops (AsyncResult_cancel (VRef l) m w).2 in
  AsyncResult_cancel (VRef l) m' w1 = (Ok (VBool true), w1) ∧
  AsyncResult_isDone (VRef l) w1 = (Ok (VBool false), w1).
Proof.
  intros Hl Hu. cbv zeta.
  rewrite (step_cancel_pending w l ob f pos kw m Hl Hu). cbn [snd].
  set (w1 := world_with w l (in_phase ob Cancelled) []).
  assert (H1 : heap w1 !! l = Some (in_phase ob Cancelled))
    by apply world_with_lookup.
  assert (Hne : Cancelled ≠ Pending) by discriminate.
  rewrite (exec_ops_settled code w1 l ob f pos kw Cancelled ops H1 Hu Hne).
  split.
  - exact (exec_op_settled_result code w1 l ob f pos kw Cancelled (OpCancel m') H1 Hu Hne).
  - exact (exec_op_settled_result code w1 l ob f pos kw Cancelled OpIsDone H1 Hu Hne).
Qed.

Lemma cancel_again_returns_true_witness :
  let w1 := exec_ops sample_code (VRef 0) [OpCancel VNone; OpRun]
              (AsyncResult_cancel (VRef 0) (VBool true)
                 (sample_world 0 [VInt 3; VInt 4])).2 in
  AsyncResult_cancel (VRef 0) (VBool false) w1 = (Ok (VBool true), w1) ∧
  AsyncResult_isDone (VRef 0) w1 = (Ok (VBool false), w1).
Proof.
  exact (cancel_again_returns_true sample_code (sample_world 0 [VInt 3; VInt 4]) 0
           (sample_unit 0 [VInt 3; VInt 4]) 0 [VInt 3; VInt 4] ∅
           (VBool true) (VBool false) [OpCancel VNone; OpRun]
           (sample_world_lookup _ _) (sample_unit_pending _ _)).
Defined.

(** X19.  When the callable returns, or raises a failure that
    [except BaseException] catches, a [run()] of a unit that still holds
    it returns [None] and records exactly one of a value and a failure,
    the one the callable produced; no later call changes what is recorded
    or what [get()] gives. *)
Theorem caught_outcome_recorded_once code w0 l ob f pos kw before :
  heap w0 !! l = Some ob → pending_unit ob f pos kw →
  settles (code f pos kw) = true →
  work_unit_present (exec_ops code (VRef l) before w0) l = true →
  ∃ w1,
    AsyncResult_run code (VRef l) (exec_ops code (VRef l) before w0) = (Ok VNone, w1) ∧
    ((∃ v, code f pos kw = Ok v ∧
           retval_at w1 l = Some v ∧ exception_at w1 l = None) ∨
     (∃ e, code f pos kw = Raise e ∧
           retval_at w1 l = None ∧ exception_at w1 l = Some (VExn e))) ∧
    ∀ after,
      let w2 := exec_ops code (VRef l) after w1 in
      retval_at w2 l = retval_at w1 l ∧
      exception_at w2 l = exception_at w1 l ∧
      ∀ t u, (AsyncResult_get (VRef l) t u w2).1 = (AsyncResult_get (VRef l) t u w1).1.
Proof.
  intros Hl Hu Hs Hpres.
  pose proof (exec_ops_in_phase code l ob f pos kw before w0 Pending Hl Hu) as Hw.
  set (w := exec_ops code (VRef l) before w0) in *.
  pose proof (present_is_pending _ _ _ _ _ _ _ Hw Hu Hpres) as Hp.
  rewrite Hp in Hw.
  destruct (code f pos kw) as [v|e|] eqn:Hc; cbn in Hs; [| |discriminate].
  - exists (world_with w l (in_phase ob (Value v)) [Called f pos kw]).
    pose proof (world_with_lookup w l (in_phase ob (Value v)) [Called f pos kw]) as H1.
    split; [exact (step_run_returning code w l ob f pos kw v Hw Hu Hc)|]. split.
    + left. exists v. repeat split.
      * exact (retval_at_phase _ _ _ _ _ _ (Value v) H1 Hu).
      * exact (exception_at_phase _ _ _ _ _ _ (Value v) H1 Hu).
    + intros after. cbv zeta.
      rewrite (exec_ops_settled code _ l ob f pos kw (Value v) after H1 Hu)
        by discriminate.
      auto.
  - exists (world_with w l (in_phase ob (Failure e)) [Called f pos kw; PrintExc e]).
    pose proof (world_with_lookup w l (in_phase ob (Failure e))
                  [Called f pos kw; PrintExc e]) as H1.
    split; [exact (step_run_raising code w l ob f pos kw e Hw Hu Hc Hs)|]. split.
    + right. exists e. repeat split.
      * exact (retval_at_phase _ _ _ _ _ _ (Failure e) H1 Hu).
      * exact (exception_at_phase _ _ _ _ _ _ (Failure e) H1 Hu).
    + intros after. cbv zeta.
      rewrite (exec_ops_settled code _ l ob f pos kw (Failure e) after H1 Hu)
        by discriminate.
      auto.
Qed.

Lemma caught_outcome_recorded_once_witness :
  ∃ w1,
    AsyncResult_run sample_code (VRef 0)
      (exec_ops sample_code (VRef 0) [OpIsDone; OpGet (Some (NInt 1)) None]
         (sample_world 0 [VInt 3; VInt 4])) = (Ok VNone, w1) ∧
    ((∃ v, sample_code 0%nat [VInt 3; VInt 4] ∅ = Ok v ∧
           retval_at w1 0 = Some v ∧ exception_at w1 0 = None) ∨
     (∃ e, sample_code 0%nat [VInt 3; VInt 4] ∅ = Raise e ∧
           retval_at w1 0 = None ∧ exception_at w1 0 = Some (VExn e))) ∧
    ∀ after,
      let w2 := exec_ops sample_code (VRef 0) after w1 in
      retval_at w2 0 = retval_at w1 0 ∧
      exception_at w2 0 = exception_at w1 0 ∧
      ∀ t u, (AsyncResult_get (VRef 0) t u w2).1 = (AsyncResult_get (VRef 0) t u w1).1.
Proof.
  exact (caught_outcome_recorded_once sample_code (sample_world 0 [VInt 3; VInt 4]) 0
           (sample_unit 0 [VInt 3; VInt 4]) 0 [VInt 3; VInt 4] ∅
           [OpIsDone; OpGet (Some (NInt 1)) None]
           (sample_world_lookup _ _) (sample_unit_pending _ _) eq_refl eq_refl).
Defined.

(** X20.  A failure that [except BaseException] catches and whose message
    converts to text is recorded by [run()]; every [get()] that gets past
    the conversion of its timeout then raises an [ExecutionException]
    whose message is that text, and the other calls return without
    changing the unit. *)
Theorem caught_failure_round_trip code w l ob f pos kw e text t u q :
  heap w !! l = Some ob → pending_unit ob f pos kw →
  code f pos kw = Raise e → isBaseException e = true → unicode e = inr text →
  get_timeout t u = inr q →
  ∃ w1,
    AsyncResult_run code (VRef l) w = (Ok VNone, w1) ∧
    exception_at w1 l = Some (VExn e) ∧
    AsyncResult_get (VRef l) t u w1 = (Raise (ExecutionException (Some text) None), w1) ∧
    carries (ExecutionException (Some text) None) e ∧
    ∀ op, is_get op = false → ∃ v, exec_op code (VRef l) op w1 = (Ok v, w1).
Proof.
  intros Hl Hu Hc Hb Hun Ht.
  set (w1 := world_with w l (in_phase ob (Failure e)) [Called f pos kw; PrintExc e]).
  assert (H1 : heap w1 !! l = Some (in_phase ob (Failure e)))
    by apply world_with_lookup.
  assert (Hne : Failure e ≠ Pending) by discriminate.
  exists w1. split; [|split; [|split; [|split]]].
  - exact (step_run_raising code w l ob f pos kw e Hl Hu Hc Hb).
  - exact (exception_at_phase _ _ _ _ _ _ (Failure e) H1 Hu).
  - pose proof (exec_op_settled_result code w1 l ob f pos kw (Failure e) (OpGet t u)
                  H1 Hu Hne) as H.
    cbn [exec_op step_phase] in H. rewrite Ht in H. unfold get_failure in H.
    rewrite (isBaseException_not_Throwable e Hb), Hun in H. exact H.
  - cbn. right. exists text. auto.
  - intros op Hop.
    rewrite (exec_op_settled_result code w1 l ob f pos kw (Failure e) op H1 Hu Hne).
    destruct op; try discriminate Hop; cbn; eauto.
Qed.

Lemma caught_failure_round_trip_witness :
  ∃ w1,
    AsyncResult_run sample_code (VRef 0) (sample_world 1 []) = (Ok VNone, w1) ∧
    exception_at w1 0 = Some (VExn (PyError "ValueError" "boom")) ∧
    AsyncResult_get (VRef 0) None None w1
      = (Raise (ExecutionException (Some "boom") None), w1) ∧
    carries (ExecutionException (Some "boom") None) (PyError "ValueError" "boom") ∧
    ∀ op, is_get op = false → ∃ v, exec_op sample_code (VRef 0) op w1 = (Ok v, w1).
Proof.
  exact (caught_failure_round_trip sample_code (sample_world 1 []) 0 (sample_unit 1 []) 1 [] ∅
           (PyError "ValueError" "boom") "boom" None None None
           (sample_world_lookup _ _) (sample_unit_pending _ _)
           eq_refl eq_refl eq_refl eq_refl).
Defined.

(** X21.  When the callable raises a Python exception whose message is a
    byte string with a byte outside ASCII, [run()] records it, and
    [get()] raises [UnicodeDecodeError] from [unicode(self._exception)]
    instead of an [ExecutionException]. *)
Theorem get_undecodable_message code w l ob f pos kw cls text err t u q :
  heap w !! l = Some ob → pending_unit ob f pos kw →
  code f pos kw = Raise (PyError cls text) → decode_ascii text = inl err →
  get_timeout t u = inr q →
  ∃ w1,
    AsyncResult_run code (VRef l) w = (Ok VNone, w1) ∧
    exception_at w1 l = Some (VExn (PyError cls text)) ∧
    AsyncResult_get (VRef l) t u w1 = (Raise err, w1) ∧
    ∃ m, err = PyError "UnicodeDecodeError" m.
Proof.
  intros Hl Hu Hc Hd Ht. set (e := PyError cls text) in *.
  set (w1 := world_with w l (in_phase ob (Failure e)) [Called f pos kw; PrintExc e]).
  assert (H1 : heap w1 !! l = Some (in_phase ob (Failure e)))
    by apply world_with_lookup.
  assert (Hne : Failure e ≠ Pending) by discriminate.
  exists w1. split; [|split; [|split]].
  - exact (step_run_raising code w l ob f pos kw e Hl Hu Hc eq_refl).
  - exact (exception_at_phase _ _ _ _ _ _ (Failure e) H1 Hu).
  - pose proof (exec_op_settled_result code w1 l ob f pos kw (Failure e) (OpGet t u)
                  H1 Hu Hne) as H.
    cbn [exec_op step_phase] in H. rewrite Ht in H. unfold get_failure in H.
    cbn [e isThrowable unicode] in H. rewrite Hd in H. exact H.
  - unfold decode_ascii in Hd.
    destruct (first_non_ascii text 0) as [[i b]|]; [|discriminate].
    injection Hd as <-. eauto.
Qed.

Lemma get_undecodable_message_witness :
  ∃ w1,
    AsyncResult_run sample_code (VRef 0) (sample_world 5 []) = (Ok VNone, w1) ∧
    exception_at w1 0 = Some (VExn (PyError "ValueError" e_acute)) ∧
    AsyncResult_get (VRef 0) None None w1 =
      (Raise (PyError "UnicodeDecodeError"
                "'ascii' codec can't decode byte 0xc3 in position 0: ordinal not in range(128)"),
       w1) ∧
    ∃ m, PyError "UnicodeDecodeError"
           "'ascii' codec can't decode byte 0xc3 in position 0: ordinal not in range(128)"
         = PyError "UnicodeDecodeError" m.
Proof.
  exact (get_undecodable_message sample_code (sample_world 5 []) 0 (sample_unit 5 [])
           5 [] ∅ "ValueError" e_acute _ None None None
           (sample_world_lookup _ _) (sample_unit_pending _ _)
           eq_refl eq_refl eq_refl).
Defined.

(** X22.  [get(timeout, unit)] with a non-zero float timeout and a unit
    raises [TypeError] from [unit.toMillis(timeout)], whatever the state
    of the unit, and changes nothing. *)
Theorem get_float_timeout_with_unit self w q u :
  Qeq_bool q 0 = false →
  ∃ text,
    AsyncResult_get self (Some (NFloat q)) (Some u) w = (Raise (TypeError text), w).
Proof.
  intros Hq. unfold AsyncResult_get, get_timeout. cbn [Num_truthy].
  rewrite Hq. cbn. eauto.
Qed.

Lemma get_float_timeout_with_unit_witness :
  ∃ text,
    AsyncResult_get (VRef 0) (Some (NFloat (1 # 2))) (Some SECONDS)
      (AsyncResult_run sample_code (VRef 0) (sample_world 0 [VInt 3; VInt 4])).2
    = (Raise (TypeError text),
       (AsyncResult_run sample_code (VRef 0) (sample_world 0 [VInt 3; VInt 4])).2).
Proof.
  exact (get_float_timeout_with_unit (VRef 0)
           (AsyncResult_run sample_code (VRef 0) (sample_world 0 [VInt 3; VInt 4])).2
           (1 # 2) SECONDS eq_refl).
Defined.

(** ** Construction, dispatch and hooks *)

Lemma fresh_not_in_heap (h : gmap nat Obj) : h !! fresh (dom h) = None.
Proof. apply not_elem_of_dom. apply is_fresh. Qed.

Lemma TaskExecutor_init_binds (s bc ac : Val) :
  bind_args TaskExecutor___init___sig [s]
    (<["beforeCallback" := bc]> (<["afterCallback" := ac]> ∅)) =
  inr (<["self" := s]> (<["coreThreads" := VInt 1]> (<["maxThreads" := VInt 1]>
        (<["keepalive" := VInt 5]> (<["queue" := VNone]>
        (<["beforeCallback" := bc]> (<["afterCallback" := ac]> ∅))))))).
Proof. reflexivity. Qed.

Lemma ThreadPoolExecutor_init_accepts w c m k q ob :
  heap w !! q = Some ob → cls ob = LinkedBlockingDeque →
  (0 <= c <= m)%Z → (0 < m < 2 ^ 31)%Z → (0 <= k < 2 ^ 63)%Z →
  ThreadPoolExecutor___init__ (VInt c) (VInt m) (VInt k) (VRef q) w =
    (Ok VNone, log (PoolInit (VInt c) (VInt m) (VInt k) (VRef q)) w).
Proof.
  intros Hq Hcls Hc Hm Hk. unfold ThreadPoolExecutor___init__.
  rewrite Hq. destruct ob as [cl ats]. cbn in Hcls. subst cl.
  replace ((- 2 ^ 31 <=? c) && (c <? 2 ^ 31) && (- 2 ^ 31 <=? m) && (m <? 2 ^ 31)
           && (- 2 ^ 63 <=? k) && (k <? 2 ^ 63))%Z with true.
  2: { symmetry. repeat (apply andb_true_intro; split);
       first [apply Z.leb_le | apply Z.ltb_lt]; lia. }
  replace ((c <? 0) || (m <=? 0) || (m <? c) || (k <? 0))%Z with false.
  2: { symmetry. repeat (apply orb_false_intro);
       first [apply Z.ltb_ge | apply Z.leb_gt]; lia. }
  reflexivity.
Qed.

Lemma ThreadPoolExecutor_init_rejects w c m k q ob :
  heap w !! q = Some ob → cls ob = LinkedBlockingDeque →
  (- 2 ^ 31 <= c < 2 ^ 31)%Z → (- 2 ^ 31 <= m < 2 ^ 31)%Z → (- 2 ^ 63 <= k < 2 ^ 63)%Z →
  (c < 0 ∨ m <= 0 ∨ m < c ∨ k < 0)%Z →
  ThreadPoolExecutor___init__ (VInt c) (VInt m) (VInt k) (VRef q) w =
    (Raise (JThrowable "java.lang.IllegalArgumentException" ""), w).
Proof.
  intros Hq Hcls Hc Hm Hk Hbad. unfold ThreadPoolExecutor___init__.
  rewrite Hq. destruct ob as [cl ats]. cbn in Hcls. subst cl.
  replace ((- 2 ^ 31 <=? c) && (c <? 2 ^ 31) && (- 2 ^ 31 <=? m) && (m <? 2 ^ 31)
           && (- 2 ^ 63 <=? k) && (k <? 2 ^ 63))%Z with true.
  2: { symmetry. repeat (apply andb_true_intro; split);
       first [apply Z.leb_le | apply Z.ltb_lt]; lia. }
  replace ((c <? 0) || (m <=? 0) || (m <? c) || (k <? 0))%Z with true.
  2: { symmetry. rewrite !orb_true_iff, !Z.ltb_lt, Z.leb_le. tauto. }
  reflexivity.
Qed.

Lemma TaskExecutor_new w bc ac :
  let kw : gmap string Val := <["beforeCallback" := bc]> (<["afterCallback" := ac]> ∅) in
  let l := fresh (dom (heap w)) in
  let q := fresh (dom (<[l := {| cls := TaskExecutor; attrs := ∅ |}]> (heap w))) in
  instantiate TaskExecutor TaskExecutor___init__ [] kw w =
    (Ok (VRef l),
     {| heap := <[l := {| cls := TaskExecutor;
                          attrs := <["afterCallback" := ac]> (<["beforeCallback" := bc]> ∅) |}]>
                  (<[q := {| cls := LinkedBlockingDeque; attrs := ∅ |}]>
                     (<[l := {| cls := TaskExecutor; attrs := ∅ |}]> (heap w)));
        trace := trace w ++ [Instantiate TaskExecutor [] kw;
                             PoolInit (VInt 1) (VInt 1) (VInt 5) (VRef q)];
        isEventDispatchThread := isEventDispatchThread w |}).
Proof.
  intros kw l q. destruct w as [h t edt]. cbn [heap] in l, q.
  assert (Hql : q ≠ l).
  { intros Heq. pose proof (fresh_not_in_heap (<[l := {| cls := TaskExecutor; attrs := ∅ |}]> h)) as Hq.
    fold q in Hq. rewrite Heq, lookup_insert_eq in Hq. discriminate. }
  unfold instantiate, TaskExecutor___init__, def, new_object.
  unfold bind at 1. unfold effect at 1. unfold bind at 1.
  cbn [heap log trace isEventDispatchThread set_heap]. fold l.
  unfold bind at 1. subst kw. rewrite TaskExecutor_init_binds.
  change (local _ "self") with (VRef l).
  change (local _ "queue") with VNone.
  change (local _ "coreThreads") with (VInt 1).
  change (local _ "maxThreads") with (VInt 1).
  change (local _ "keepalive") with (VInt 5).
  change (local _ "beforeCallback") with bc.
  change (local _ "afterCallback") with ac.
  unfold bind at 1. unfold truth. cbn [truthy]. cbv beta iota.
  unfold bind at 1.
  cbn [heap trace isEventDispatchThread set_heap log]. fold q.
  unfold bind at 1.
  erewrite ThreadPoolExecutor_init_accepts;
    [| apply lookup_insert_eq | reflexivity | lia | lia | lia].
  unfold bind, setattr, ret, set_heap, log, with_attr.
  cbn [heap trace isEventDispatchThread cls attrs].
  rewrite (lookup_insert_ne _ q l) by exact Hql. rewrite lookup_insert_eq.
  cbn [heap trace isEventDispatchThread cls attrs].
  rewrite lookup_insert_eq.
  cbn [heap trace isEventDispatchThread cls attrs].
  rewrite insert_insert_eq, <- app_assoc. reflexivity.
Qed.

(** X9.  [RunnableWrapper(f, args, kwargs)] always succeeds and gives a
    new object; running it calls [f] on exactly those arguments, drops
    what [f] returns, and lets a failure of [f] out to whoever runs it. *)
Theorem RunnableWrapper_call_round_trip code w n pos kw :
  ∃ l w1,
    instantiate RunnableWrapper RunnableWrapper___init__
      [VFunc n; VTuple pos; VDict kw] ∅ w = (Ok (VRef l), w1) ∧
    heap w !! l = None ∧
    RunnableWrapper_run code (VRef l) w1 =
      (match code n pos kw with Ok _ => Ok VNone | r => r end,
       log (Called n pos kw) w1).
Proof.
  eexists _, _. split; [apply RunnableWrapper_new|]. split.
  - apply fresh_not_in_heap.
  - apply (RunnableWrapper_run_result code _ _ _ n pos kw (world_with_lookup _ _ _ _));
      reflexivity.
Qed.

(** X10.  Off the dispatch thread the wrapper of [invokeLater] returns
    [None] without calling the function: all it does is build a runnable
    and queue it; when that runnable is run later, the function is called
    on the arguments the wrapper received. *)
Theorem invokeLater_queues_the_call code w n pos kw :
  isEventDispatchThread w = false →
  ∃ l w1,
    invokeLater_wrapper code (VFunc n) pos kw w = (Ok VNone, w1) ∧
    heap w !! l = None ∧
    trace w1 = (trace w ++ [Instantiate RunnableWrapper [VFunc n; VTuple pos; VDict kw] ∅;
                            EdtInvokeLater (VRef l)])%list ∧
    RunnableWrapper_run code (VRef l) w1 =
      (match code n pos kw with Ok _ => Ok VNone | r => r end,
       log (Called n pos kw) w1).
Proof.
  intros Hedt. eexists _, _.
  split; [exact (invokeLater_queued code w (VFunc n) pos kw Hedt)|].
  split; [apply fresh_not_in_heap|]. split; [reflexivity|].
  apply (RunnableWrapper_run_result code _ _ _ n pos kw (world_with_lookup _ _ _ _));
    reflexivity.
Qed.

(** X11.  On the dispatch thread the wrapper of [invokeLater] calls the
    function at once, on the arguments it received, builds and queues
    nothing, and returns [None] whatever the function returns. *)
Theorem invokeLater_direct_result code w n pos kw :
  isEventDispatchThread w = true →
  invokeLater_wrapper code (VFunc n) pos kw w =
    (match code n pos kw with Ok _ => Ok VNone | r => r end, log (Called n pos kw) w).
Proof.
  intros Hedt. unfold invokeLater_wrapper, def. rewrite bind_args_wrapper.
  destruct (wrapper_locals pos kw) as [-> ->].
  unfold onEventDispatchThread, unpack_args, call, effect, bind, ret.
  rewrite Hedt. cbn [as_dict]. destruct (code n pos kw); reflexivity.
Qed.

(** X12.  On the dispatch thread [execInEDT] and the wrapper of
    [invokeInEDT] are the plain call of the function: its return value or
    its failure reaches the caller untouched, and no holder is built or
    queued. *)
Theorem invokeInEDT_call_through code w n pos kw :
  isEventDispatchThread w = true → kw !! "func" = None →
  execInEDT code (VFunc n :: pos) kw w = (code n pos kw, log (Called n pos kw) w) ∧
  invokeInEDT_wrapper code (VFunc n) pos kw w = (code n pos kw, log (Called n pos kw) w).
Proof.
  intros Hedt Hkw. split; [exact (execInEDT_call_through code w n pos kw Hedt Hkw)|].
  unfold invokeInEDT_wrapper, def. rewrite bind_args_wrapper.
  destruct (wrapper_locals pos kw) as [-> ->].
  cbn [unpack_args as_dict]. unfold bind at 1, ret at 1.
  exact (execInEDT_call_through code w n pos kw Hedt Hkw).
Qed.

(** X13.  Off the dispatch thread the wrapper of [invokeInEDT] (through
    [execInEDT]) raises the [TypeError] of the holder's construction: the
    function is not called and nothing is handed to the dispatch thread. *)
Theorem invokeInEDT_off_thread_raises code w func pos kw :
  isEventDispatchThread w = false → kw !! "func" = None →
  (invokeInEDT_wrapper code func pos kw w).1 =
    Raise (TypeError "__init__() takes exactly 4 arguments (7 given)") ∧
  trace (invokeInEDT_wrapper code func pos kw w).2 =
    (trace w ++ [Instantiate AsyncResult [func; VTuple pos; VDict kw] ∅])%list.
Proof.
  intros Hedt Hkw.
  assert (H : invokeInEDT_wrapper code func pos kw w =
              (Raise (TypeError "__init__() takes exactly 4 arguments (7 given)"),
               world_with w (fresh (dom (heap w))) {| cls := AsyncResult; attrs := ∅ |}
                 [Instantiate AsyncResult [func; VTuple pos; VDict kw] ∅])).
  { unfold invokeInEDT_wrapper, def. rewrite bind_args_wrapper.
    destruct (wrapper_locals pos kw) as [-> ->].
    cbn [unpack_args as_dict]. unfold bind at 1, ret at 1.
    unfold execInEDT, def. rewrite (execInEDT_binds _ _ _ Hkw).
    unfold bind at 1. unfold onEventDispatchThread. rewrite Hedt.
    unfold bind at 1. rewrite AsyncResult_new_raises. reflexivity. }
  rewrite H. split; reflexivity.
Qed.

Lemma bind_args_repeated s a (extra : list Val) (kw : gmap string Val) vals p v :
  star_args s = Some a →
  length vals = length (params s) → NoDup (params s) →
  p ∈ params s → kw !! p = Some v →
  ∃ text, bind_args s (vals ++ extra) kw = inl (TypeError text).
Proof.
  intros Ha Hlen Hnd Hp Hkw. unfold bind_args. rewrite Ha.
  rewrite bool_decide_eq_false_2 by (intros [_ ?]; discriminate).
  rewrite bool_decide_eq_true_2; [eauto|].
  intros Hempty.
  assert (Hin : p ∈ dom (list_to_map (zip (params s) (vals ++ extra)) : gmap string Val)
                  ∩ dom (filter (λ kv : string * Val, kv.1 ∈ params s) kw)).
  { apply elem_of_intersection. split.
    - rewrite zip_exact_app by exact Hlen.
      apply elem_of_dom. apply (list_elem_of_lookup_1 _) in Hp as [i Hi].
      destruct (lookup_lt_is_Some_2 vals i) as [x Hx].
      { rewrite Hlen. eapply lookup_lt_Some; eauto. }
      exists x. apply elem_of_list_to_map_1.
      + rewrite fst_zip by lia. exact Hnd.
      + apply list_elem_of_lookup_2 with i. apply lookup_zip_with_Some. eauto.
    - apply elem_of_dom. exists v. apply map_lookup_filter_Some. split; [exact Hkw|].
      exact Hp. }
  rewrite Hempty in Hin. by apply elem_of_empty in Hin.
Qed.

(** X14.  A keyword argument named [func] cannot be passed on to the
    function: the wrappers of [invokeInEDT], [task] and [namedTask] forward
    it to a function whose own parameter has that name, and the call
    raises [TypeError] before anything is done. *)
Theorem keyword_named_func_rejected code w self name bc ac func pos kw v :
  kw !! "func" = Some v →
  (∃ text, invokeInEDT_wrapper code func pos kw w = (Raise (TypeError text), w)) ∧
  (∃ text, TaskExecutor_task_wrapper self func pos kw w = (Raise (TypeError text), w)) ∧
  (∃ text, TaskExecutor_namedTask_inner self name bc ac func pos kw w
             = (Raise (TypeError text), w)).
Proof.
  intros Hkw. split; [|split].
  - destruct (bind_args_repeated execInEDT_sig "args" pos kw [func] "func" v)
      as [text Hb]; try reflexivity; try exact Hkw.
    { by apply (bool_decide_unpack _). }
    { by apply (bool_decide_unpack _). }
    exists text. unfold invokeInEDT_wrapper, def. rewrite bind_args_wrapper.
    destruct (wrapper_locals pos kw) as [-> ->].
    cbn [unpack_args as_dict]. unfold bind at 1, ret at 1.
    unfold execInEDT, def.
    change (func :: pos) with (([func] ++ pos)%list). rewrite Hb. reflexivity.
  - destruct (bind_args_repeated runTask_sig "args" pos kw [self; func] "func" v)
      as [text Hb]; try reflexivity; try exact Hkw.
    { by apply (bool_decide_unpack _). }
    { by apply (bool_decide_unpack _). }
    exists text. unfold TaskExecutor_task_wrapper, def. rewrite bind_args_wrapper.
    destruct (wrapper_locals pos kw) as [-> ->].
    cbn [unpack_args as_dict]. unfold bind at 1, ret at 1.
    unfold TaskExecutor_runTask, def.
    change (self :: func :: pos) with (([self; func] ++ pos)%list). rewrite Hb.
    reflexivity.
  - destruct (bind_args_repeated runNamedTask_sig "args" pos
                (<["afterCallback" := ac]> (<["beforeCallback" := bc]> kw))
                [self; func; name] "func" v)
      as [text Hb]; try reflexivity.
    { by apply (bool_decide_unpack _). }
    { by apply (bool_decide_unpack _). }
    { rewrite !lookup_insert_ne by done. exact Hkw. }
    exists text. unfold TaskExecutor_namedTask_inner, def. rewrite bind_args_wrapper.
    destruct (wrapper_locals pos kw) as [-> ->].
    cbn [unpack_args as_dict]. unfold bind at 1, ret at 1.
    unfold TaskExecutor_runNamedTask, def.
    change (self :: func :: name :: pos) with (([self; func; name] ++ pos)%list).
    rewrite Hb. reflexivity.
Qed.

Lemma afterExecute_hooks code w el ex ul u throwable ac rc :
  heap w !! el = Some ex → attrs ex !! "afterCallback" = Some ac →
  heap w !! ul = Some u → attrs u !! "afterCallback" = Some rc →
  (ac = VNone ∨ ∃ g x, ac = VFunc g ∧ code g [VRef ul; throwable] ∅ = Ok x) →
  (rc = VNone ∨ ∃ g x, rc = VFunc g ∧ code g [VRef ul; throwable] ∅ = Ok x) →
  TaskExecutor_afterExecute code (VRef el) (VRef ul) throwable w =
    (Ok VNone,
     {| heap := heap w;
        trace := (trace w ++ hook_call ac [VRef ul; throwable])
                   ++ hook_call rc [VRef ul; throwable];
        isEventDispatchThread := isEventDispatchThread w |}).
Proof.
  intros Hel Hac Hul Hrc Ha Hr. destruct w as [h t edt]. cbn in *.
  unfold TaskExecutor_afterExecute, bind, call, effect, ret, getattr, log.
  destruct Ha as [-> | (g & x & -> & Hg)], Hr as [-> | (g' & x' & -> & Hg')];
    cbn; rewrite ?Hel, ?Hul; cbn; rewrite ?Hac, ?Hrc; cbn;
    rewrite ?Hg; cbn; rewrite ?Hul; cbn; rewrite ?Hrc; cbn; rewrite ?Hg';
    rewrite ?app_nil_r; reflexivity.
Qed.

(** X15.  When the runnable carries both hook attributes and the hooks
    that are set return, [beforeExecute] calls the pool-wide hook and then
    the runnable's own on (thread, runnable), [afterExecute] does the same
    on (runnable, throwable), a hook that is [None] is skipped, and both
    return [None] without touching the heap. *)
Theorem hook_points_call_in_order code w el ex ul u thread throwable bc ac rb ra :
  heap w !! el = Some ex → heap w !! ul = Some u →
  attrs ex !! "beforeCallback" = Some bc → attrs ex !! "afterCallback" = Some ac →
  attrs u !! "beforeCallback" = Some rb → attrs u !! "afterCallback" = Some ra →
  (bc = VNone ∨ ∃ g x, bc = VFunc g ∧ code g [thread; VRef ul] ∅ = Ok x) →
  (rb = VNone ∨ ∃ g x, rb = VFunc g ∧ code g [thread; VRef ul] ∅ = Ok x) →
  (ac = VNone ∨ ∃ g x, ac = VFunc g ∧ code g [VRef ul; throwable] ∅ = Ok x) →
  (ra = VNone ∨ ∃ g x, ra = VFunc g ∧ code g [VRef ul; throwable] ∅ = Ok x) →
  TaskExecutor_beforeExecute code (VRef el) thread (VRef ul) w =
    (Ok VNone,
     {| heap := heap w;
        trace := (trace w ++ hook_call bc [thread; VRef ul])
                   ++ hook_call rb [thread; VRef ul];
        isEventDispatchThread := isEventDispatchThread w |}) ∧
  TaskExecutor_afterExecute code (VRef el) (VRef ul) throwable w =
    (Ok VNone,
     {| heap := heap w;
        trace := (trace w ++ hook_call ac [VRef ul; throwable])
                   ++ hook_call ra [VRef ul; throwable];
        isEventDispatchThread := isEventDispatchThread w |}).
Proof.
  intros Hel Hul Hbc Hac Hrb Hra H1 H2 H3 H4. split.
  - exact (beforeExecute_hooks code w el ex ul u thread bc rb Hel Hbc Hul Hrb H1 H2).
  - exact (afterExecute_hooks code w el ex ul u throwable ac ra Hel Hac Hul Hra H3 H4).
Qed.

Lemma hook_points_call_in_order_witness :
  let w := hooked_world (VFunc 3) (VFunc 4) in
  TaskExecutor_beforeExecute sample_code (VRef 0) (VStr "worker-1") (VRef 1) w =
    (Ok VNone,
     {| heap := heap w;
        trace := [Called 3 [VStr "worker-1"; VRef 1] ∅; Called 4 [VStr "worker-1"; VRef 1] ∅];
        isEventDispatchThread := false |}) ∧
  TaskExecutor_afterExecute sample_code (VRef 0) (VRef 1) VNone w =
    (Ok VNone,
     {| heap := heap w;
        trace := [Called 3 [VRef 1; VNone] ∅; Called 4 [VRef 1; VNone] ∅];
        isEventDispatchThread := false |}).
Proof.
  refine (hook_points_call_in_order sample_code (hooked_world (VFunc 3) (VFunc 4))
            0 _ 1 _ (VStr "worker-1") VNone (VFunc 3) (VFunc 3) (VFunc 4) (VFunc 4)
            eq_refl eq_refl eq_refl eq_refl eq_refl eq_refl _ _ _ _);
    right; eexists _, _; split; reflexivity.
Defined.

(** X16.  A failure of the pool-wide hook is not caught: the hook point
    raises it and the runnable's own hook is not looked up or called. *)
Theorem hook_failure_propagates code w el ex ul thread throwable g e :
  heap w !! el = Some ex →
  attrs ex !! "beforeCallback" = Some (VFunc g) →
  attrs ex !! "afterCallback" = Some (VFunc g) →
  code g [thread; VRef ul] ∅ = Raise e →
  code g [VRef ul; throwable] ∅ = Raise e →
  TaskExecutor_beforeExecute code (VRef el) thread (VRef ul) w =
    (Raise e, log (Called g [thread; VRef ul] ∅) w) ∧
  TaskExecutor_afterExecute code (VRef el) (VRef ul) throwable w =
    (Raise e, log (Called g [VRef ul; throwable] ∅) w).
Proof.
  intros Hel Hbc Hac Hb Ha. split.
  - unfold TaskExecutor_beforeExecute, call, effect, bind, ret.
    rewrite (getattr_instance _ _ _ _ _ Hel Hbc). unfold truth. cbn [truthy]. cbv beta iota.
    rewrite Hb. reflexivity.
  - unfold TaskExecutor_afterExecute, call, effect, bind, ret.
    rewrite (getattr_instance _ _ _ _ _ Hel Hac). unfold truth. cbn [truthy]. cbv beta iota.
    rewrite Ha. reflexivity.
Qed.

Lemma hook_failure_propagates_witness :
  let w := hooked_world (VFunc 1) (VFunc 4) in
  TaskExecutor_beforeExecute sample_code (VRef 0) (VStr "worker-1") (VRef 1) w =
    (Raise (PyError "ValueError" "boom"), log (Called 1 [VStr "worker-1"; VRef 1] ∅) w) ∧
  TaskExecutor_afterExecute sample_code (VRef 0) (VRef 1) VNone w =
    (Raise (PyError "ValueError" "boom"), log (Called 1 [VRef 1; VNone] ∅) w).
Proof.
  exact (hook_failure_propagates sample_code (hooked_world (VFunc 1) (VFunc 4))
           0 _ 1 (VStr "worker-1") VNone 1 (PyError "ValueError" "boom")
           eq_refl eq_refl eq_refl eq_refl eq_refl).
Defined.

(** X17.  On a runnable on which nobody assigned [afterCallback],
    [afterExecute] raises [AttributeError], after the pool-wide hook has
    been called. *)
Theorem afterExecute_unhooked_unit code w el ex ul u throwable g x :
  heap w !! el = Some ex → attrs ex !! "afterCallback" = Some (VFunc g) →
  code g [VRef ul; throwable] ∅ = Ok x →
  heap w !! ul = Some u → attrs u !! "afterCallback" = None →
  class_attr (cls u) "afterCallback" = None →
  TaskExecutor_afterExecute code (VRef el) (VRef ul) throwable w =
    (Raise (AttributeError ("'" +:+ class_name (cls u) +:+
              "' object has no attribute 'afterCallback'")),
     log (Called g [VRef ul; throwable] ∅) w).
Proof.
  intros Hel Hac Hg Hul Hrc Hcls.
  unfold TaskExecutor_afterExecute, call, effect, bind, ret.
  rewrite (getattr_instance _ _ _ _ _ Hel Hac). unfold truth. cbn [truthy]. cbv beta iota.
  rewrite Hg.
  rewrite (getattr_missing (log (Called g [VRef ul; throwable] ∅) w) ul u "afterCallback"
             Hul Hrc Hcls).
  reflexivity.
Qed.

Lemma invokeLater_queues_the_call_witness :
  ∃ l w1,
    invokeLater_wrapper sample_code (VFunc 0) [VInt 3; VInt 4] ∅ (empty_world false)
      = (Ok VNone, w1) ∧
    heap (empty_world false) !! l = None ∧
    trace w1 = ([] ++ [Instantiate RunnableWrapper
                         [VFunc 0; VTuple [VInt 3; VInt 4]; VDict ∅] ∅;
                       EdtInvokeLater (VRef l)])%list ∧
    RunnableWrapper_run sample_code (VRef l) w1 =
      (match sample_code 0%nat [VInt 3; VInt 4] ∅ with Ok _ => Ok VNone | r => r end,
       log (Called 0 [VInt 3; VInt 4] ∅) w1).
Proof.
  exact (invokeLater_queues_the_call sample_code (empty_world false) 0
           [VInt 3; VInt 4] ∅ eq_refl).
Defined.

Lemma invokeLater_direct_result_witness :
  invokeLater_wrapper sample_code (VFunc 0) [VInt 3; VInt 4] ∅ (empty_world true) =
    (Ok VNone, log (Called 0 [VInt 3; VInt 4] ∅) (empty_world true)).
Proof.
  exact (invokeLater_direct_result sample_code (empty_world true) 0
           [VInt 3; VInt 4] ∅ eq_refl).
Defined.

Lemma invokeInEDT_call_through_witness :
  execInEDT sample_code [VFunc 0; VInt 3; VInt 4] ∅ (empty_world true) =
    (Ok (VInt 7), log (Called 0 [VInt 3; VInt 4] ∅) (empty_world true)) ∧
  invokeInEDT_wrapper sample_code (VFunc 0) [VInt 3; VInt 4] ∅ (empty_world true) =
    (Ok (VInt 7), log (Called 0 [VInt 3; VInt 4] ∅) (empty_world true)).
Proof.
  exact (invokeInEDT_call_through sample_code (empty_world true) 0
           [VInt 3; VInt 4] ∅ eq_refl eq_refl).
Defined.

Lemma invokeInEDT_off_thread_raises_witness :
  (invokeInEDT_wrapper sample_code (VFunc 0) [VInt 3; VInt 4] ∅ (empty_world false)).1 =
    Raise (TypeError "__init__() takes exactly 4 arguments (7 given)") ∧
  trace (invokeInEDT_wrapper sample_code (VFunc 0) [VInt 3; VInt 4] ∅
           (empty_world false)).2 =
    ([] ++ [Instantiate AsyncResult [VFunc 0; VTuple [VInt 3; VInt 4]; VDict ∅] ∅])%list.
Proof.
  exact (invokeInEDT_off_thread_raises sample_code (empty_world false) (VFunc 0)
           [VInt 3; VInt 4] ∅ eq_refl eq_refl).
Defined.

Lemma keyword_named_func_rejected_witness :
  let kw : gmap string Val := <["func" := VInt 1]> ∅ in
  let w := empty_world true in
  (∃ text, invokeInEDT_wrapper sample_code (VFunc 0) [VInt 3] kw w
             = (Raise (TypeError text), w)) ∧
  (∃ text, TaskExecutor_task_wrapper (VRef 0) (VFunc 0) [VInt 3] kw w
             = (Raise (TypeError text), w)) ∧
  (∃ text, TaskExecutor_namedTask_inner (VRef 0) (VStr "sum") VNone VNone (VFunc 0)
             [VInt 3] kw w = (Raise (TypeError text), w)).
Proof.
  exact (keyword_named_func_rejected sample_code (empty_world true) (VRef 0)
           (VStr "sum") VNone VNone (VFunc 0) [VInt 3] (<["func" := VInt 1]> ∅)
           (VInt 1) eq_refl).
Defined.

Lemma afterExecute_unhooked_unit_witness :
  TaskExecutor_afterExecute sample_code (VRef 0) (VRef 2) VNone after_hook_world =
    (Raise (AttributeError "'RunnableWrapper' object has no attribute 'afterCallback'"),
     log (Called 3 [VRef 2; VNone] ∅) after_hook_world).
Proof.
  exact (afterExecute_unhooked_unit sample_code after_hook_world 0 _ 2 _ VNone 3 VNone
           eq_refl eq_refl eq_refl eq_refl eq_refl eq_refl).
Defined.

(** X18.  [TaskExecutor(beforeCallback=b, afterCallback=a)] gives a new
    executor whose pool-wide hooks are [b] and [a]; the pool is set up
    with one core thread, one thread at most, a keepalive of 5 and a new
    queue of its own. *)
Theorem TaskExecutor_new_stores_hooks w bc ac :
  ∃ l q w1,
    instantiate TaskExecutor TaskExecutor___init__ []
      (<["beforeCallback" := bc]> (<["afterCallback" := ac]> ∅)) w = (Ok (VRef l), w1) ∧
    heap w !! l = None ∧ heap w !! q = None ∧ q ≠ l ∧
    getattr (VRef l) "beforeCallback" w1 = (Ok bc, w1) ∧
    getattr (VRef l) "afterCallback" w1 = (Ok ac, w1) ∧
    trace w1 =
      (trace w ++
       [Instantiate TaskExecutor []
          (<["beforeCallback" := bc]> (<["afterCallback" := ac]> ∅));
        PoolInit (VInt 1) (VInt 1) (VInt 5) (VRef q)])%list.
Proof.
  pose proof (TaskExecutor_new w bc ac) as H. cbv zeta in H.
  set (l := fresh (dom (heap w))) in *.
  set (q := fresh (dom (<[l := {| cls := TaskExecutor; attrs := ∅ |}]> (heap w)))) in *.
  assert (Hq : (<[l := {| cls := TaskExecutor; attrs := ∅ |}]> (heap w)) !! q = None)
    by apply fresh_not_in_heap.
  assert (Hql : q ≠ l).
  { intros Heq. rewrite Heq, lookup_insert_eq in Hq. discriminate. }
  eexists l, q, _. split; [exact H|].
  split; [apply fresh_not_in_heap|].
  split; [rewrite lookup_insert_ne in Hq by (intros Heq; exact (Hql (eq_sym Heq))); exact Hq|].
  split; [exact Hql|].
  split; [|split; [|reflexivity]].
  - apply getattr_instance with
      {| cls := TaskExecutor;
         attrs := <["afterCallback" := ac]> (<["beforeCallback" := bc]> ∅) |}.
    + apply lookup_insert_eq.
    + reflexivity.
  - apply getattr_instance with
      {| cls := TaskExecutor;
         attrs := <["afterCallback" := ac]> (<["beforeCallback" := bc]> ∅) |}.
    + apply lookup_insert_eq.
    + reflexivity.
Qed.

Lemma TaskExecutor_init_binds_sizes (s : Val) (c m : Z) :
  bind_args TaskExecutor___init___sig [s; VInt c; VInt m] ∅ =
  inr (<["self" := s]> (<["coreThreads" := VInt c]> (<["maxThreads" := VInt m]>
        (<["keepalive" := VInt 5]> (<["queue" := VNone]>
        (<["beforeCallback" := VNone]> (<["afterCallback" := VNone]> ∅))))))).
Proof. reflexivity. Qed.

Lemma TaskExecutor_init_binds_core (s : Val) (c : Z) :
  bind_args TaskExecutor___init___sig [s; VInt c] ∅ =
  inr (<["self" := s]> (<["coreThreads" := VInt c]> (<["maxThreads" := VInt 1]>
        (<["keepalive" := VInt 5]> (<["queue" := VNone]>
        (<["beforeCallback" := VNone]> (<["afterCallback" := VNone]> ∅))))))).
Proof. reflexivity. Qed.

Lemma TaskExecutor_sizes w pos (c m : Z) :
  (∀ s, bind_args TaskExecutor___init___sig (s :: pos) ∅ =
    inr (<["self" := s]> (<["coreThreads" := VInt c]> (<["maxThreads" := VInt m]>
        (<["keepalive" := VInt 5]> (<["queue" := VNone]>
        (<["beforeCallback" := VNone]> (<["afterCallback" := VNone]> ∅)))))))) →
  (0 <= c < 2 ^ 31)%Z → (- 2 ^ 31 <= m < c)%Z →
  let l := fresh (dom (heap w)) in
  let q := fresh (dom (<[l := {| cls := TaskExecutor; attrs := ∅ |}]> (heap w))) in
  instantiate TaskExecutor TaskExecutor___init__ pos ∅ w =
    (Raise (JThrowable "java.lang.IllegalArgumentException" ""),
     {| heap := <[q := {| cls := LinkedBlockingDeque; attrs := ∅ |}]>
                  (<[l := {| cls := TaskExecutor; attrs := ∅ |}]> (heap w));
        trace := trace w ++ [Instantiate TaskExecutor pos ∅];
        isEventDispatchThread := isEventDispatchThread w |}).
Proof.
  intros Hb Hc Hm l q. destruct w as [h t edt]. cbn [heap] in l, q.
  unfold instantiate, TaskExecutor___init__, def, new_object.
  unfold bind at 1. unfold effect at 1. unfold bind at 1.
  cbn [heap log trace isEventDispatchThread set_heap]. fold l.
  unfold bind at 1. rewrite Hb.
  change (local _ "self") with (VRef l).
  change (local _ "queue") with VNone.
  change (local _ "coreThreads") with (VInt c).
  change (local _ "maxThreads") with (VInt m).
  change (local _ "keepalive") with (VInt 5).
  unfold bind at 1. unfold truth. cbn [truthy]. cbv beta iota.
  unfold bind at 1.
  cbn [heap trace isEventDispatchThread set_heap log]. fold q.
  unfold bind at 1.
  erewrite ThreadPoolExecutor_init_rejects;
    [| apply lookup_insert_eq | reflexivity | lia | lia | lia | lia].
  reflexivity.
Qed.

(** X23.  [TaskExecutor(coreThreads, maxThreads)] with a maximum below
    the core size raises the [IllegalArgumentException] of the Java
    constructor and sets up no pool; as [maxThreads] defaults to 1, so
    does [TaskExecutor(coreThreads)] for every core size above 1. *)
Theorem TaskExecutor_rejects_small_maximum w c m :
  (0 <= c < 2 ^ 31)%Z → (- 2 ^ 31 <= m < c)%Z →
  (instantiate TaskExecutor TaskExecutor___init__ [VInt c; VInt m] ∅ w).1 =
    Raise (JThrowable "java.lang.IllegalArgumentException" "") ∧
  trace (instantiate TaskExecutor TaskExecutor___init__ [VInt c; VInt m] ∅ w).2 =
    (trace w ++ [Instantiate TaskExecutor [VInt c; VInt m] ∅])%list ∧
  (m = 1%Z →
   (instantiate TaskExecutor TaskExecutor___init__ [VInt c] ∅ w).1 =
     Raise (JThrowable "java.lang.IllegalArgumentException" "")).
Proof.
  intros Hc Hm.
  pose proof (TaskExecutor_sizes w [VInt c; VInt m] c m
                (fun s => TaskExecutor_init_binds_sizes s c m) Hc Hm) as H.
  cbv zeta in H. rewrite H. split; [reflexivity|]. split; [reflexivity|].
  intros ->.
  pose proof (TaskExecutor_sizes w [VInt c] c 1
                (fun s => TaskExecutor_init_binds_core s c) Hc Hm) as H1.
  cbv zeta in H1. rewrite H1. reflexivity.
Qed.

Lemma TaskExecutor_rejects_small_maximum_witness :
  (instantiate TaskExecutor TaskExecutor___init__ [VInt 2; VInt 1] ∅ (empty_world false)).1 =
    Raise (JThrowable "java.lang.IllegalArgumentException" "") ∧
  trace (instantiate TaskExecutor TaskExecutor___init__ [VInt 2; VInt 1] ∅
           (empty_world false)).2 =
    ([] ++ [Instantiate TaskExecutor [VInt 2; VInt 1] ∅])%list ∧
  (1%Z = 1%Z →
   (instantiate TaskExecutor TaskExecutor___init__ [VInt 2] ∅ (empty_world false)).1 =
     Raise (JThrowable "java.lang.IllegalArgumentException" "")).
Proof.
  apply (TaskExecutor_rejects_small_maximum (empty_world false) 2 1); lia.
Defined.

Lemma TaskExecutor_init_binds_queue (s q : Val) :
  bind_args TaskExecutor___init___sig [s] (<["queue" := q]> ∅) =
  inr (<["self" := s]> (<["coreThreads" := VInt 1]> (<["maxThreads" := VInt 1]>
        (<["keepalive" := VInt 5]> (<["queue" := q]>
        (<["beforeCallback" := VNone]> (<["afterCallback" := VNone]> ∅))))))).
Proof. reflexivity. Qed.

(** X24.  [TaskExecutor(queue=q)] uses the caller's queue only when it
    holds something: [queue or LinkedBlockingDeque()] replaces an empty
    one by a new queue. *)
Theorem TaskExecutor_queue_argument w q0 ob0 :
  heap w !! q0 = Some ob0 → cls ob0 = LinkedBlockingDeque →
  ∃ l q w1,
    instantiate TaskExecutor TaskExecutor___init__ [] (<["queue" := VRef q0]> ∅) w
      = (Ok (VRef l), w1) ∧
    heap w !! l = None ∧
    trace w1 =
      (trace w ++
       [Instantiate TaskExecutor [] (<["queue" := VRef q0]> ∅);
        PoolInit (VInt 1) (VInt 1) (VInt 5) (VRef q)])%list ∧
    (if (deque_size ob0 =? 0)%Z then heap w !! q = None ∧ q ≠ l else q = q0).
Proof.
  intros Hq0 Hcls. destruct w as [h t edt]. cbn [heap trace] in *.
  set (l := fresh (dom h)).
  assert (Hl : h !! l = None) by apply fresh_not_in_heap.
  assert (Hlq : l ≠ q0) by (intros ->; rewrite Hl in Hq0; discriminate).
  set (h1 := <[l := {| cls := TaskExecutor; attrs := ∅ |}]> h).
  assert (Hq1 : h1 !! q0 = Some ob0).
  { unfold h1. rewrite lookup_insert_ne by exact Hlq. exact Hq0. }
  unfold instantiate, TaskExecutor___init__, def, new_object.
  unfold bind at 1. unfold effect at 1. unfold bind at 1.
  cbn [heap log trace isEventDispatchThread set_heap]. fold l. fold h1.
  unfold bind at 1. rewrite TaskExecutor_init_binds_queue.
  change (local _ "self") with (VRef l).
  change (local _ "queue") with (VRef q0).
  change (local _ "coreThreads") with (VInt 1).
  change (local _ "maxThreads") with (VInt 1).
  change (local _ "keepalive") with (VInt 5).
  change (local _ "beforeCallback") with VNone.
  change (local _ "afterCallback") with VNone.
  unfold bind at 1. unfold truth.
  cbn [heap trace isEventDispatchThread set_heap log].
  rewrite Hq1, Hcls.
  destruct (deque_size ob0 =? 0)%Z eqn:Hsz; cbn [negb].
  - set (q := fresh (dom h1)).
    assert (Hq : h1 !! q = None) by apply fresh_not_in_heap.
    assert (Hql : q ≠ l).
    { intros Heq. unfold h1 in Hq. rewrite Heq, lookup_insert_eq in Hq. discriminate. }
    exists l, q.
    unfold bind at 1.
    cbn [heap trace isEventDispatchThread set_heap log]. fold q.
    unfold bind at 1.
    erewrite ThreadPoolExecutor_init_accepts;
      [| apply lookup_insert_eq | reflexivity | lia | lia | lia].
    unfold bind, setattr, ret, set_heap, log, with_attr.
    cbn [heap trace isEventDispatchThread cls attrs].
    rewrite (lookup_insert_ne _ q l) by exact Hql. unfold h1 at 1. rewrite lookup_insert_eq.
    cbn [heap trace isEventDispatchThread cls attrs].
    rewrite lookup_insert_eq.
    cbn [heap trace isEventDispatchThread cls attrs].
    eexists. split; [reflexivity|]. split; [exact Hl|]. split.
    + rewrite <- app_assoc. reflexivity.
    + split; [|exact Hql]. unfold h1 in Hq.
      rewrite lookup_insert_ne in Hq by (intros Heq; exact (Hql (eq_sym Heq))). exact Hq.
  - exists l, q0.
    unfold bind at 1, ret at 1. unfold bind at 1.
    erewrite ThreadPoolExecutor_init_accepts;
      [| exact Hq1 | exact Hcls | lia | lia | lia].
    unfold bind, setattr, ret, set_heap, log, with_attr.
    cbn [heap trace isEventDispatchThread cls attrs].
    unfold h1 at 1. rewrite lookup_insert_eq.
    cbn [heap trace isEventDispatchThread cls attrs].
    rewrite lookup_insert_eq.
    cbn [heap trace isEventDispatchThread cls attrs].
    eexists. split; [reflexivity|]. split; [exact Hl|]. split.
    + rewrite <- app_assoc. reflexivity.
    + reflexivity.
Qed.

Lemma TaskExecutor_queue_argument_witness :
  ∃ l q w1,
    instantiate TaskExecutor TaskExecutor___init__ [] (<["queue" := VRef 0]> ∅)
      (queue_world 0) = (Ok (VRef l), w1) ∧
    heap (queue_world 0) !! l = None ∧
    trace w1 =
      ([] ++
       [Instantiate TaskExecutor [] (<["queue" := VRef 0]> ∅);
        PoolInit (VInt 1) (VInt 1) (VInt 5) (VRef q)])%list ∧
    (heap (queue_world 0) !! q = None ∧ q ≠ l).
Proof.
  exact (TaskExecutor_queue_argument (queue_world 0) 0 _ eq_refl eq_refl).
Defined.
